(** * wordopdf-frontend: the batch intake and submission workflow of [App.tsx]

    A shallow embedding of the React component [App] (src/App.tsx) and of its
    earlier variant (the copy with the hard-coded endpoint and no capacity
    constant), followed by the properties of the intake rules, of the status
    state machine and of the transfer protocol.

    Conventions.
    - React state ([files], [isLoading], [status], [isDragging]) is the record
      [AppState]; a setter is a function on it.  A handler is a closure over
      the values of the render in which it was created: those values are the
      explicit first arguments ([files]) of the handlers below, the state the
      setters act on is threaded.
    - [handleSubmit] is written in a small monad [Js] of state, trace and
      exceptions: [throw], [try ... catch ... finally] are the source's.
    - What the platform answers (the outcome of [fetch], of [response.text()],
      of [response.blob()], of [URL.createObjectURL]) is the record
      [Platform], an input of the model.
    - JavaScript strings are [string]; a header value is a byte string, one
      character per byte. *)

From Stdlib Require Import List String Ascii Bool Arith ZArith NArith Lia.
From Stdlib Require Import DecimalString.
Import ListNotations.
Local Open Scope string_scope.
Local Open Scope list_scope.

Set Implicit Arguments.

(** ** Strings of the JavaScript runtime *)

Module JsString.

(** [s.endsWith(suffix)]: some tail of [s] is [suffix]. *)
Fixpoint endsWith (s suffix : string) : bool :=
  if String.eqb s suffix then true
  else match s with
       | EmptyString => false
       | String _ s' => endsWith s' suffix
       end.

(** [s.startsWith(p)]. *)
Definition startsWith (s p : string) : bool := String.prefix p s.

(** [s.includes(sub)]: [sub] starts at some position of [s]. *)
Fixpoint includes (s sub : string) : bool :=
  if startsWith s sub then true
  else match s with
       | EmptyString => false
       | String _ s' => includes s' sub
       end.

(** [String(n)] for a non-negative integer, as a template literal prints it. *)
Definition ofNat (n : nat) : string := NilEmpty.string_of_uint (Nat.to_uint n).

(** Truthiness of a string: only the empty string is falsy. *)
Definition truthy (s : string) : bool :=
  match s with EmptyString => false | String _ _ => true end.

End JsString.

(** ** Data model *)

(** A [File] of the platform: the fields the component reads, and an opaque
    handle standing for the binary content. *)
Module File.
Record t := mk { name : string; size : N; type : string; handle : nat }.

(** The identity the component compares files by. *)
Definition key (f : t) : string * N := (name f, size f).
End File.
Abbreviation File := File.t.

Inductive StatusType := error | success | idle.

Record StatusState := { message : string; type : StatusType }.

(** The four [useState] cells of [App]. *)
Record AppState := mkApp {
  files : list File;
  isLoading : bool;
  status : StatusState;
  isDragging : bool
}.

(** The first render: [useState([])], [useState(false)],
    [useState({ message: '', type: 'idle' })], [useState(false)]. *)
Definition initial : AppState :=
  {| files := []; isLoading := false;
     status := {| message := EmptyString; type := idle |};
     isDragging := false |}.

(** The setters.  [setFiles] takes the updater form the source uses
    ([setFiles(prevFiles => ...)]); [setFiles([])] is [setFiles (fun _ => [])]. *)
Definition setFiles (upd : list File -> list File) (st : AppState) : AppState :=
  {| files := upd (files st); isLoading := isLoading st;
     status := status st; isDragging := isDragging st |}.

Definition setIsLoading (b : bool) (st : AppState) : AppState :=
  {| files := files st; isLoading := b;
     status := status st; isDragging := isDragging st |}.

Definition setStatus (s : StatusState) (st : AppState) : AppState :=
  {| files := files st; isLoading := isLoading st;
     status := s; isDragging := isDragging st |}.

Definition setIsDragging (b : bool) (st : AppState) : AppState :=
  {| files := files st; isLoading := isLoading st;
     status := status st; isDragging := b |}.

(** ** Constants and messages of [App.tsx] *)

Definition MAX_FILES : nat := 30.

Definition DOCX_MIME : string :=
  "application/vnd.openxmlformats-officedocument.wordprocessingml.document".

Definition status_idle : StatusState := {| message := EmptyString; type := idle |}.

(** [`Você já atingiu o limite de ${MAX_FILES} arquivos.`] *)
Definition msg_already_full : string :=
  "Você já atingiu o limite de " ++ JsString.ofNat MAX_FILES ++ " arquivos.".

(** [`Limite de ${MAX_FILES} arquivos atingido. ${filesToAdd.length} arquivo(s) foram adicionados.`] *)
Definition msg_partially_added (n : nat) : string :=
  "Limite de " ++ JsString.ofNat MAX_FILES ++ " arquivos atingido. "
    ++ JsString.ofNat n ++ " arquivo(s) foram adicionados.".

(** [`Limite de ${MAX_FILES} arquivos atingido. Nenhum arquivo novo foi adicionado.`] *)
Definition msg_none_added : string :=
  "Limite de " ++ JsString.ofNat MAX_FILES
    ++ " arquivos atingido. Nenhum arquivo novo foi adicionado.".

Definition msg_empty_submission : string :=
  "Opa! Você precisa selecionar um arquivo .docx primeiro.".

Definition msg_success : string :=
  "Prontinho! ✨ Conversão concluída, seu download vai começar.".

Definition msg_network : string :=
  "Opa! Não consegui conectar ao servidor. Tente de novo daqui a pouco.".

Definition msg_server : string :=
  "Ih, deu um probleminha no servidor ao tentar converter. Tente novamente!".

Definition msg_unexpected : string :=
  "Ocorreu um erro inesperado. Por favor, tente de novo.".

Definition status_error (m : string) : StatusState := {| message := m; type := error |}.
Definition status_success (m : string) : StatusState := {| message := m; type := success |}.

(** ** Intake: [addFiles], [removeFile], [clearAll] *)

(** [file.name.endsWith('.docx') || file.type === '<docx mime>'] *)
Definition isDocx (file : File) : bool :=
  JsString.endsWith (File.name file) ".docx" || String.eqb (File.type file) DOCX_MIME.

(** [files.some(f => f.name === file.name && f.size === file.size)] *)
Definition isDuplicate (files : list File) (file : File) : bool :=
  existsb (fun f => String.eqb (File.name f) (File.name file)
                    && N.eqb (File.size f) (File.size file)) files.

(** The locals of [addFiles] that the [forEach] callback updates. *)
Record Staging := { filesToAdd : list File; limitReached : bool }.

(** The body of the [forEach] callback of [addFiles]; [files] is the list
    captured by the closure.  The [return] of the capacity test ends this call
    of the callback only: the loop goes on to the next file. *)
Definition addFiles_each (files : list File) (acc : Staging) (file : File) : Staging :=
  if (MAX_FILES <=? List.length files + List.length (filesToAdd acc))%nat then
    {| filesToAdd := filesToAdd acc; limitReached := true |}
  else if isDocx file && negb (isDuplicate files file) then
    {| filesToAdd := filesToAdd acc ++ [file]; limitReached := limitReached acc |}
  else acc.

Definition addFiles_loop (files newFiles : list File) : Staging :=
  fold_left (addFiles_each files) newFiles {| filesToAdd := []; limitReached := false |}.

(** [addFiles(newFiles)] of [App.tsx], as a closure over the rendered [files]. *)
Definition addFiles (files : list File) (newFiles : list File) (st : AppState) : AppState :=
  let st := setStatus status_idle st in
  if (MAX_FILES <=? List.length files)%nat then
    setStatus (status_error msg_already_full) st
  else
    let r := addFiles_loop files newFiles in
    let st :=
      if limitReached r && (0 <? List.length (filesToAdd r))%nat then
        setStatus (status_error (msg_partially_added (List.length (filesToAdd r)))) st
      else if limitReached r then
        setStatus (status_error msg_none_added) st
      else st in
    setFiles (fun prevFiles => prevFiles ++ filesToAdd r) st.

(** [Array.prototype.filter] with the two-argument callback [(x, i) => ...];
    [i] counts from [start]. *)
Fixpoint filter_indexed {A : Type} (p : A -> Z -> bool) (start : Z) (l : list A) : list A :=
  match l with
  | [] => []
  | x :: l' =>
      if p x start then x :: filter_indexed p (start + 1) l'
      else filter_indexed p (start + 1) l'
  end.

(** [removeFile(index)]: [prevFiles.filter((_, i) => i !== index)]. *)
Definition removeFile (index : Z) (st : AppState) : AppState :=
  setFiles (fun prevFiles => filter_indexed (fun _ i => negb (Z.eqb i index)) 0 prevFiles) st.

(** [clearAll()]. *)
Definition clearAll (st : AppState) : AppState :=
  setStatus status_idle (setFiles (fun _ => []) st).

(** ** The platform: errors, responses, effects *)

(** A thrown value: every exception the submission can meet ([TypeError] of
    [fetch], [DOMException] of a body read, [new Error(...)] of the handler
    itself) is an object with a string [message]. *)
Module JsError.
Record t := Error { message : string }.
End JsError.

Record Blob := { blob_id : nat }.

(** A [Response] as [handleSubmit] observes it. *)
Record Response := {
  resp_status : nat;                     (* response.status *)
  content_disposition : option string;   (* response.headers.get('content-disposition'), null when absent *)
  text_result : JsError.t + string;      (* what [await response.text()] settles to *)
  blob_result : JsError.t + Blob         (* what [await response.blob()] settles to *)
}.

(** [response.ok]: the status is in the range 200-299. *)
Definition ok (r : Response) : bool :=
  ((200 <=? resp_status r) && (resp_status r <=? 299))%nat.

(** What the outside world answers during one submission. *)
Record Platform := {
  API_URL : string;                          (* import.meta.env.VITE_API_URL *)
  fetch_result : JsError.t + Response;       (* what [await fetch(...)] settles to *)
  createObjectURL_result : JsError.t + string
}.

(** One entry of a multipart body: [formData.append(field, file)]. *)
Definition FormData := list (string * File).

(** The observable actions of the component besides its state. *)
Inductive Effect :=
| ConsoleError (label detail : string)
| FetchIssued (url method : string) (body : FormData)
| ObjectURLCreated (b : Blob) (url : string)
| AnchorAppended (href download : string)
| AnchorClicked (href download : string)
| ObjectURLRevoked (url : string)
| AnchorRemoved.

Record World := { app : AppState; trace : list Effect }.

(** ** The monad of handlers: state, trace and exceptions *)

Definition Js (A : Type) : Type := World -> (JsError.t + A) * World.

Definition ret {A} (a : A) : Js A := fun w => (inr a, w).

Definition bind {A B} (c : Js A) (k : A -> Js B) : Js B :=
  fun w => match c w with
           | (inl e, w') => (inl e, w')
           | (inr a, w') => k a w'
           end.

Definition throw {A} (e : JsError.t) : Js A := fun w => (inl e, w).

(** [await p] for a promise whose outcome the platform decides. *)
Definition await {A} (outcome : JsError.t + A) : Js A := fun w => (outcome, w).

(** A state setter called from a handler. *)
Definition set (f : AppState -> AppState) : Js unit :=
  fun w => (inr tt, {| app := f (app w); trace := trace w |}).

Definition emit (e : Effect) : Js unit :=
  fun w => (inr tt, {| app := app w; trace := trace w ++ [e] |}).

(** [try { body } catch (error) { handler } finally { fin }]. *)
Definition try_catch_finally {A} (body : Js A) (handler : JsError.t -> Js A)
    (fin : Js unit) : Js A :=
  fun w =>
    let '(r1, w1) := body w in
    let '(r2, w2) := match r1 with
                     | inl e => handler e w1
                     | inr a => (inr a, w1)
                     end in
    match fin w2 with
    | (inl e, w3) => (inl e, w3)
    | (inr _, w3) => (r2, w3)
    end.

Declare Scope js_scope.
Delimit Scope js_scope with js.
Notation "x <- c ;; k" := (bind c (fun x => k))
  (at level 61, c at next level, right associativity) : js_scope.
Notation "c ;; k" := (bind c (fun _ => k))
  (at level 61, right associativity) : js_scope.

(** Running a handler from a state; the result is the final world and whether
    the handler (the promise it returns) ended with an uncaught exception. *)
Definition run {A} (c : Js A) (st : AppState) : (JsError.t + A) * World :=
  c {| app := st; trace := [] |}.

Definition final {A} (c : Js A) (st : AppState) : AppState := app (snd (run c st)).

(** ** The pattern of [contentDisposition.match]: filename=, a double quote,
    the lazy group (.+?), a double quote *)

Module ContentDisposition.

Definition dquote : ascii := "034"%char.

(** The literal head of the pattern: filename= and the opening double quote. *)
Definition head : string := "filename=" ++ String dquote EmptyString.

(** [.] matches every character but a line terminator.  A header value is
    a byte string: of the four line terminators of the language only line
    feed and carriage return are bytes. *)
Definition dot (c : ascii) : bool :=
  negb (Ascii.eqb c "010"%char || Ascii.eqb c "013"%char).

(** [strip p s]: the rest of [s] after the literal [p], when [s] starts with it. *)
Fixpoint strip (p s : string) : option string :=
  match p, s with
  | EmptyString, _ => Some s
  | String a p', String b s' => if Ascii.eqb a b then strip p' s' else None
  | String _ _, EmptyString => None
  end.

(** The lazy repetition after the first character of the group: stop at
    the first closing quote, take one more [.] otherwise. *)
Fixpoint lazy_more (s : string) : option string :=
  match s with
  | EmptyString => None
  | String c s' =>
      if Ascii.eqb c dquote then Some EmptyString
      else if dot c then option_map (String c) (lazy_more s')
      else None
  end.

(** The group and the closing quote at the start of [s]: one [.], then the
    lazy repetition. *)
Definition group (s : string) : option string :=
  match s with
  | EmptyString => None
  | String c s' => if dot c then option_map (String c) (lazy_more s') else None
  end.

(** The whole pattern anchored at the start of [s]; the result is the
    captured group. *)
Definition match_here (s : string) : option string :=
  match strip head s with
  | Some rest => group rest
  | None => None
  end.

(** The search of [String.prototype.match] for a pattern without the [g]
    flag: the first position, from the left, where the pattern matches.
    The result is the match array [[whole, group 1]], [None] for [null]. *)
Fixpoint match_ (s : string) : option (list string) :=
  match match_here s with
  | Some v => Some [(head ++ v ++ String dquote EmptyString)%string; v]
  | None => match s with
            | EmptyString => None
            | String _ s' => match_ s'
            end
  end.

(** Every character of [v] is matched by [.]. *)
Fixpoint all_dot (v : string) : Prop :=
  match v with
  | EmptyString => True
  | String c v' => dot c = true /\ all_dot v'
  end.

(** [s] starts with an occurrence of the pattern whose group is [v]:
    the literal head, a non-empty [v] without line terminators, a closing
    double quote. *)
Definition matches_with (s v : string) : Prop :=
  exists post,
    s = (head ++ v ++ String dquote post)%string
    /\ v <> EmptyString /\ all_dot v.

(** [v] is what the pattern captures in [h]: the group of the leftmost
    occurrence and, there, the shortest group (the quantifier is lazy). *)
Definition captures (h v : string) : Prop :=
  exists pre s,
    h = (pre ++ s)%string
    /\ matches_with s v
    /\ (forall pre' s' v',
          h = (pre' ++ s')%string -> String.length pre' < String.length pre ->
          ~ matches_with s' v')
    /\ (forall v', matches_with s v' -> String.length v <= String.length v').

End ContentDisposition.

Definition DEFAULT_FILENAME : string := "converted-files.zip".

(** The filename resolution of [handleSubmit]:
    [let filename = 'converted-files.zip'; if (contentDisposition) { ... }]. *)
Definition resolveFilename (contentDisposition : option string) : string :=
  let filename := DEFAULT_FILENAME in
  match contentDisposition with
  | Some cd =>
      if JsString.truthy cd then
        match ContentDisposition.match_ cd with
        | Some filenameMatch =>
            if (1 <? List.length filenameMatch)%nat
            then nth 1 filenameMatch filename
            else filename
        | None => filename
        end
      else filename
  | None => filename
  end.

(** The save of [handleSubmit]: object URL, hidden anchor, click, release. *)
Definition download (P : Platform) (blob : Blob) (filename : string) : Js unit :=
  (url <- await (createObjectURL_result P) ;;
   emit (ObjectURLCreated blob url) ;;
   emit (AnchorAppended url filename) ;;
   emit (AnchorClicked url filename) ;;
   emit (ObjectURLRevoked url) ;;
   emit AnchorRemoved)%js.

(** ** Submission: [handleSubmit] of [App.tsx] *)

(** [fetch(API_URL, { method: 'POST', body: formData })]: the request leaves
    when [fetch] is called, the response is awaited. *)
Definition fetch_send (P : Platform) (formData : FormData) : Js unit :=
  emit (FetchIssued (API_URL P) "POST" formData).

(** The [try] block after the call of [fetch]. *)
Definition handleSubmit_try (P : Platform) : Js unit :=
  (response <- await (fetch_result P) ;;
   (if negb (ok response) then
      errorText <- await (text_result response) ;;
      emit (ConsoleError "Erro do servidor:" errorText) ;;
      throw (JsError.Error "server_error")
    else ret tt) ;;
   blob <- await (blob_result response) ;;
   let filename := resolveFilename (content_disposition response) in
   download P blob filename ;;
   set (setStatus (status_success msg_success)) ;;
   set clearAll)%js.

(** The [catch] block. *)
Definition handleSubmit_catch (error : JsError.t) : Js unit :=
  (emit (ConsoleError "Erro na conversão:" (JsError.message error)) ;;
   if JsString.includes (JsError.message error) "Failed to fetch" then
     set (setStatus (status_error msg_network))
   else if String.eqb (JsError.message error) "server_error" then
     set (setStatus (status_error msg_server))
   else
     set (setStatus (status_error msg_unexpected)))%js.

(** [handleSubmit()], as a closure over the rendered [files]. *)
Definition handleSubmit (files : list File) (P : Platform) : Js unit :=
  if (List.length files =? 0)%nat then
    set (setStatus (status_error msg_empty_submission))
  else
    (set (setIsLoading true) ;;
     set (setStatus status_idle) ;;
     let formData := map (fun file => ("files", file)) files in
     try_catch_finally
       (fetch_send P formData ;; handleSubmit_try P)
       handleSubmit_catch
       (set (setIsLoading false)))%js.

(** The part of [handleSubmit] that runs in the click itself, up to the call
    of [fetch], and the part that runs when the response settles. *)
Definition handleSubmit_sync (files : list File) (P : Platform) : Js unit :=
  if (List.length files =? 0)%nat then
    set (setStatus (status_error msg_empty_submission))
  else
    (set (setIsLoading true) ;;
     set (setStatus status_idle) ;;
     fetch_send P (map (fun file => ("files", file)) files))%js.

Definition handleSubmit_async (P : Platform) : Js unit :=
  try_catch_finally (handleSubmit_try P) handleSubmit_catch (set (setIsLoading false)).

(** ** The other handlers and the rendered controls *)

(** [handleDrop]: [setIsDragging(false); addFiles(e.dataTransfer.files)]. *)
Definition handleDrop (files : list File) (dropped : list File) (st : AppState) : AppState :=
  addFiles files dropped (setIsDragging false st).

Definition handleDragOver (st : AppState) : AppState := setIsDragging true st.
Definition handleDragLeave (st : AppState) : AppState := setIsDragging false st.

(** [handleFileChange]: [if (e.target.files) addFiles(e.target.files)]. *)
Definition handleFileChange (files : list File) (target_files : option (list File))
    (st : AppState) : AppState :=
  match target_files with
  | Some fl => addFiles files fl st
  | None => st
  end.

(** What the user, or the network, can do to the component. *)
Inductive Event :=
| Drop (dropped : list File)                 (* onDrop of the drop zone *)
| DragOver
| DragLeave
| Change (target_files : option (list File)) (* onChange of the file input *)
| RemoveClick (index : nat)                  (* the X button of item [index] *)
| ClearClick
| ConvertClick (P : Platform)                (* [P]: what the platform will answer *)
| Settle.                                    (* the oldest pending request settles *)

(** The component and the requests that have left and not settled yet. *)
Record Machine := { world : World; pending : list Platform }.

Definition boot : Machine :=
  {| world := {| app := initial; trace := [] |}; pending := [] |}.

(** Whether the rendered page lets the event reach its handler: the
    [disabled] attributes and the conditional rendering of the JSX.
    - the drop zone carries its three handlers unconditionally;
    - the file input has [disabled={isLoading}];
    - one X button per rendered item, each with [disabled={isLoading}];
    - the two action buttons sit in a block that is [hidden] when
      [files.length === 0]; Converter has
      [disabled={isLoading || files.length === 0}], Limpar has
      [disabled={isLoading}]. *)
Definition reaches (m : Machine) (ev : Event) : bool :=
  let st := app (world m) in
  match ev with
  | Drop _ | DragOver | DragLeave => true
  | Change _ => negb (isLoading st)
  | RemoveClick index => (index <? List.length (files st))%nat && negb (isLoading st)
  | ClearClick => negb (List.length (files st) =? 0)%nat && negb (isLoading st)
  | ConvertClick _ =>
      negb (List.length (files st) =? 0)%nat
      && negb (isLoading st || (List.length (files st) =? 0)%nat)
  | Settle => match pending m with [] => false | _ :: _ => true end
  end.

Definition update (f : AppState -> AppState) (m : Machine) : Machine :=
  {| world := {| app := f (app (world m)); trace := trace (world m) |};
     pending := pending m |}.

(** One event: the handler created by the current render runs on the
    current state. *)
Definition step (m : Machine) (ev : Event) : Machine :=
  if negb (reaches m ev) then m else
  let st := app (world m) in
  match ev with
  | Drop dropped => update (handleDrop (files st) dropped) m
  | DragOver => update handleDragOver m
  | DragLeave => update handleDragLeave m
  | Change target_files => update (handleFileChange (files st) target_files) m
  | RemoveClick index => update (removeFile (Z.of_nat index)) m
  | ClearClick => update clearAll m
  | ConvertClick P =>
      {| world := snd (handleSubmit_sync (files st) P (world m));
         pending := pending m ++ [P] |}
  | Settle =>
      match pending m with
      | [] => m
      | P :: rest =>
          {| world := snd (handleSubmit_async P (world m)); pending := rest |}
      end
  end.

Definition steps (m : Machine) (evs : list Event) : Machine := fold_left step evs m.

(** ** The earlier variant of the component

    The copy of [App.tsx] with the hard-coded endpoint: no [MAX_FILES], the
    server's text in the error message.  [removeFile], [clearAll] and the
    save are the same as above. *)
Module Legacy.

Definition API_URL : string := "http://localhost:3001/convert".

Definition addFiles_each (files : list File) (filesToAdd : list File) (file : File)
    : list File :=
  if isDocx file && negb (isDuplicate files file) then filesToAdd ++ [file]
  else filesToAdd.

Definition addFiles (files : list File) (newFiles : list File) (st : AppState)
    : AppState :=
  let st := setStatus status_idle st in
  let filesToAdd := fold_left (addFiles_each files) newFiles [] in
  setFiles (fun prevFiles => prevFiles ++ filesToAdd) st.

Definition msg_empty_submission : string :=
  "Por favor, selecione pelo menos um arquivo .docx".

Definition msg_success : string :=
  "Conversão concluída! O download do .zip começou.".

Definition msg_network : string :=
  "Erro de conexão: Não foi possível acessar o servidor. O Docker está rodando?".

Definition msg_server_default : string :=
  "Erro no servidor. Verifique o console do Docker.".

Definition handleSubmit_try (P : Platform) : Js unit :=
  (response <- await (fetch_result P) ;;
   (if negb (ok response) then
      errorText <- await (text_result response) ;;
      throw (JsError.Error
               (if JsString.truthy errorText then errorText else msg_server_default))
    else ret tt) ;;
   blob <- await (blob_result response) ;;
   let filename := resolveFilename (content_disposition response) in
   download P blob filename ;;
   set (setStatus (status_success msg_success)) ;;
   set clearAll)%js.

Definition handleSubmit_catch (error : JsError.t) : Js unit :=
  (emit (ConsoleError "Erro na conversão:" (JsError.message error)) ;;
   if JsString.includes (JsError.message error) "Failed to fetch" then
     set (setStatus (status_error msg_network))
   else
     set (setStatus (status_error (JsError.message error))))%js.

(** The endpoint is the constant [API_URL]; of [P] only the answers are used. *)
Definition handleSubmit (files : list File) (P : Platform) : Js unit :=
  if (List.length files =? 0)%nat then
    set (setStatus (status_error msg_empty_submission))
  else
    (set (setIsLoading true) ;;
     set (setStatus status_idle) ;;
     let formData := map (fun file => ("files", file)) files in
     try_catch_finally
       (emit (FetchIssued API_URL "POST" formData) ;; handleSubmit_try P)
       handleSubmit_catch
       (set (setIsLoading false)))%js.

End Legacy.

(** ** Vocabulary of the properties, and the inputs of the scenarios *)

(** The flag of [addFiles] is raised only once the batch and the staged files
    fill the capacity. *)
Definition flag_means_full (files : list File) (acc : Staging) : Prop :=
  limitReached acc = true ->
  MAX_FILES <= List.length files + List.length (filesToAdd acc).

(** A file that the type gate or the duplicate gate drops. *)
Definition dropped (files : list File) (file : File) : bool :=
  negb (isDocx file && negb (isDuplicate files file)).

(** The handler of the render of [st]: the closure holds [files st]. *)
Definition offer (st : AppState) (newFiles : list File) : AppState :=
  addFiles (files st) newFiles st.

(** A sequence of admission attempts, each from the render that follows the
    previous one. *)
Definition offers (st : AppState) (attempts : list (list File)) : AppState :=
  fold_left offer attempts st.

(** Two files that two folders can hold: same name, same size, different
    content. *)
Definition report_v1 : File := File.mk "report.docx" 2048 DOCX_MIME 1.
Definition report_v2 : File := File.mk "report.docx" 2048 DOCX_MIME 2.

(** Scenario D: thirty-one distinct documents offered to the empty batch. *)
Definition numbered (n : nat) : File :=
  File.mk ("doc" ++ JsString.ofNat n ++ ".docx") (N.of_nat (1000 + n)) DOCX_MIME n.

Definition thirty_one : list File := map numbered (seq 1 31).

Definition notes_txt : File := File.mk "notes.txt" 12 "text/plain" 7.

(** The click on Converter in the render of [st], and the whole exchange
    that follows it. *)
Definition submit (st : AppState) (P : Platform) : (JsError.t + unit) * World :=
  run (handleSubmit (files st) P) st.

(** The message the [catch] block chooses. *)
Definition catch_message (e : JsError.t) : string :=
  if JsString.includes (JsError.message e) "Failed to fetch" then msg_network
  else if String.eqb (JsError.message e) "server_error" then msg_server
  else msg_unexpected.

(** The state and the trace a failed exchange ends with: the handler returns
    normally, the [finally] block has run. *)
Definition failed (st1 : AppState) (tr : list Effect) (e : JsError.t)
    : (JsError.t + unit) * World :=
  (inr tt,
   {| app := setIsLoading false (setStatus (status_error (catch_message e)) st1);
      trace := tr ++ [ConsoleError "Erro na conversão:" (JsError.message e)] |}).

(** The request [handleSubmit] sends for a batch. *)
Definition request (P : Platform) (batch : list File) : Effect :=
  FetchIssued (API_URL P) "POST" (map (fun file => ("files", file)) batch).

Definition local_platform : Platform :=
  {| API_URL := "http://localhost:3001/convert";
     fetch_result := inl (JsError.Error "Failed to fetch");
     createObjectURL_result := inr "blob:1" |}.

(** Scenario A: ten documents, a 200 response that names the archive. *)
Definition ten_documents : list File := map numbered (seq 1 10).

Definition out_zip_header : string :=
  "attachment; filename=" ++ String ContentDisposition.dquote "out.zip"
    ++ String ContentDisposition.dquote EmptyString.

Definition archive_response : Response :=
  {| resp_status := 200;
     content_disposition := Some out_zip_header;
     text_result := inr EmptyString;
     blob_result := inr {| blob_id := 1 |} |}.

Definition answering (r : Response) : Platform :=
  {| API_URL := "https://api.example.org/convert";
     fetch_result := inr r;
     createObjectURL_result := inr "blob:5f1c" |}.

Definition holding (batch : list File) : AppState := setFiles (fun _ => batch) initial.

(** Whether the exchange fails: the transport fails, or the status is not
    2xx, or reading the body or saving it throws. *)
Definition transfer_fails (P : Platform) : bool :=
  match fetch_result P with
  | inl _ => true
  | inr r =>
      negb (ok r)
      || match blob_result r with inl _ => true | inr _ => false end
      || match createObjectURL_result P with inl _ => true | inr _ => false end
  end.

(** Scenario B: the browser is offline. *)
Definition offline : Platform :=
  {| API_URL := "https://api.example.org/convert";
     fetch_result := inl (JsError.Error "Failed to fetch");
     createObjectURL_result := inr "blob:5f1c" |}.

(** Scenario C: a 500 response that carries a diagnostic. *)
Definition failing_response (diagnostic : string) : Response :=
  {| resp_status := 500;
     content_disposition := None;
     text_result := inr diagnostic;
     blob_result := inr {| blob_id := 0 |} |}.

(** At most one request is pending, and exactly while the component shows
    loading. *)
Definition one_transfer (m : Machine) : Prop :=
  if isLoading (app (world m)) then List.length (pending m) = 1 else pending m = [].

(** A page with one document whose conversion has been requested. *)
Definition converting : Machine :=
  steps boot [Change (Some [report_v1]); ConvertClick (answering archive_response)].

(** ** Vocabulary of the further properties *)

(** A file that passes the type gate and the duplicate gate of [addFiles]. *)
Definition passes (files : list File) (file : File) : bool :=
  isDocx file && negb (isDuplicate files file).

(** The room a batch leaves. *)
Definition room (files : list File) : nat := MAX_FILES - List.length files.

(** Twenty-nine documents: a batch with room for one. *)
Definition twenty_nine : list File := map numbered (seq 1 29).

(** An event whose files, if it offers any, carry pairwise different
    (name, size) keys. *)
Definition offer_unique (ev : Event) : Prop :=
  match ev with
  | Drop fl | Change (Some fl) => NoDup (map File.key fl)
  | _ => True
  end.

Definition is_request (e : Effect) : bool :=
  match e with FetchIssued _ _ _ => true | _ => false end.

Definition is_console (e : Effect) : bool :=
  match e with ConsoleError _ _ => true | _ => false end.

(** A request as the conversion endpoint expects it: a POST whose multipart
    body has between one and [MAX_FILES] parts, all under the field name
    files. *)
Definition well_formed (e : Effect) : Prop :=
  match e with
  | FetchIssued _ method body =>
      method = "POST"
      /\ body <> []
      /\ List.length body <= MAX_FILES
      /\ Forall (fun part => fst part = "files") body
  | _ => True
  end.

(** A string without a double quote. *)
Fixpoint no_quote (s : string) : Prop :=
  match s with
  | EmptyString => True
  | String c s' => c <> ContentDisposition.dquote /\ no_quote s'
  end.

(** The header value [pre filename=<quote>name<quote> post]. *)
Definition naming (pre name post : string) : string :=
  pre ++ ContentDisposition.head ++ name ++ String ContentDisposition.dquote post.

(** * Properties *)

(** ** Intake *)

Section Intake.

Variable files : list File.

Lemma addFiles_each_length acc file :
  List.length files + List.length (filesToAdd acc) <= MAX_FILES ->
  List.length files + List.length (filesToAdd (addFiles_each files acc file)) <= MAX_FILES.
Proof.
  intros H. unfold addFiles_each.
  destruct (Nat.leb_spec MAX_FILES (List.length files + List.length (filesToAdd acc))).
  - simpl. exact H.
  - destruct (isDocx file && negb (isDuplicate files file)); simpl.
    + rewrite length_app. simpl. lia.
    + exact H.
Qed.

Lemma addFiles_fold_length newFiles : forall acc,
  List.length files + List.length (filesToAdd acc) <= MAX_FILES ->
  List.length files
    + List.length (filesToAdd (fold_left (addFiles_each files) newFiles acc)) <= MAX_FILES.
Proof.
  induction newFiles as [|file rest IH]; intros acc H; simpl.
  - exact H.
  - apply IH, addFiles_each_length, H.
Qed.

Lemma addFiles_each_flag acc file :
  flag_means_full files acc -> flag_means_full files (addFiles_each files acc file).
Proof.
  unfold flag_means_full, addFiles_each. intros H.
  destruct (Nat.leb_spec MAX_FILES (List.length files + List.length (filesToAdd acc))).
  - simpl. intros _. assumption.
  - destruct (isDocx file && negb (isDuplicate files file)); simpl.
    + intros Hl. apply H in Hl. lia.
    + exact H.
Qed.

Lemma addFiles_fold_flag newFiles : forall acc,
  flag_means_full files acc -> flag_means_full files (fold_left (addFiles_each files) newFiles acc).
Proof.
  induction newFiles as [|file rest IH]; intros acc H; simpl.
  - exact H.
  - apply IH, addFiles_each_flag, H.
Qed.

Lemma addFiles_loop_flag newFiles : flag_means_full files (addFiles_loop files newFiles).
Proof.
  apply addFiles_fold_flag. unfold flag_means_full. simpl. discriminate.
Qed.

Lemma addFiles_fold_all_dropped newFiles : forall acc,
  List.length files + List.length (filesToAdd acc) < MAX_FILES ->
  forallb (dropped files) newFiles = true ->
  fold_left (addFiles_each files) newFiles acc = acc.
Proof.
  induction newFiles as [|file rest IH]; intros acc Hroom Hall; simpl.
  - reflexivity.
  - simpl in Hall. apply andb_true_iff in Hall as [Hd Hrest].
    assert (Hstep : addFiles_each files acc file = acc).
    { unfold addFiles_each.
      destruct (Nat.leb_spec MAX_FILES (List.length files + List.length (filesToAdd acc)));
        [lia|].
      unfold dropped in Hd. apply negb_true_iff in Hd. rewrite Hd. reflexivity. }
    rewrite Hstep. apply IH; assumption.
Qed.

(** When every offered file passes the type and duplicate gates, the loop
    stages the files that fit, in offer order, and raises the flag exactly
    when one is left over. *)
Lemma addFiles_fold_all_pass newFiles : forall acc,
  forallb (fun f => negb (dropped files f)) newFiles = true ->
  let room := MAX_FILES - (List.length files + List.length (filesToAdd acc)) in
  fold_left (addFiles_each files) newFiles acc =
    {| filesToAdd := filesToAdd acc ++ firstn room newFiles;
       limitReached := limitReached acc || (room <? List.length newFiles)%nat |}.
Proof.
  induction newFiles as [|file rest IH]; intros acc Hall room; simpl.
  - rewrite firstn_nil, app_nil_r.
    replace (room <? 0)%nat with false by (symmetry; apply Nat.ltb_ge; lia).
    rewrite orb_false_r. destruct acc; reflexivity.
  - simpl in Hall. apply andb_true_iff in Hall as [Hp Hrest].
    rewrite (IH _ Hrest). clear IH.
    unfold dropped in Hp. rewrite negb_involutive in Hp.
    unfold addFiles_each. rewrite Hp.
    destruct (Nat.leb_spec MAX_FILES (List.length files + List.length (filesToAdd acc)))
      as [Hfull|Hfree]; cbn [filesToAdd limitReached].
    + replace room with 0 by (unfold room; lia).
      replace (MAX_FILES - (List.length files + List.length (filesToAdd acc))) with 0 by lia.
      rewrite !firstn_O. rewrite orb_true_r. reflexivity.
    + destruct room as [|r] eqn:Hroom; [unfold room in Hroom; lia|].
      rewrite length_app. cbn [List.length].
      replace (MAX_FILES - (List.length files + (List.length (filesToAdd acc) + 1)))
        with r by (unfold room in Hroom; lia).
      cbn [firstn]. rewrite <- app_assoc. cbn [app].
      reflexivity.
Qed.

End Intake.

(** The three tests of [addFiles], in the order of the source. *)
Ltac addFiles_branches files0 :=
  unfold addFiles;
  destruct (MAX_FILES <=? List.length files0)%nat; [reflexivity|];
  cbv zeta;
  destruct (limitReached _ && _); [reflexivity|];
  destruct (limitReached _); reflexivity.

Lemma addFiles_files files0 newFiles st :
  files (addFiles files0 newFiles st) =
    if (MAX_FILES <=? List.length files0)%nat then files st
    else files st ++ filesToAdd (addFiles_loop files0 newFiles).
Proof. addFiles_branches files0. Qed.

Lemma addFiles_isLoading files0 newFiles st :
  isLoading (addFiles files0 newFiles st) = isLoading st.
Proof. addFiles_branches files0. Qed.

(** The capacity half of the batch invariant: one admission attempt keeps a
    batch of at most [MAX_FILES] files within [MAX_FILES]. *)
Lemma offer_capacity st newFiles :
  List.length (files st) <= MAX_FILES ->
  List.length (files (offer st newFiles)) <= MAX_FILES.
Proof.
  intros H. unfold offer. rewrite addFiles_files.
  destruct (Nat.leb_spec MAX_FILES (List.length (files st))); [exact H|].
  rewrite length_app. apply addFiles_fold_length. simpl. lia.
Qed.

(** ... and so does every sequence of attempts from the empty batch. *)
Lemma offers_capacity attempts : forall st,
  List.length (files st) <= MAX_FILES ->
  List.length (files (offers st attempts)) <= MAX_FILES.
Proof.
  unfold offers.
  induction attempts as [|a rest IH]; intros st H; simpl.
  - exact H.
  - apply IH, offer_capacity, H.
Qed.

Lemma offers_capacity_initial attempts :
  List.length (files (offers initial attempts)) <= 30.
Proof. apply offers_capacity. simpl. unfold MAX_FILES. lia. Qed.

(** The duplicate gate looks the key up in the rendered batch. *)
Lemma isDuplicate_In files0 file :
  isDuplicate files0 file = true <-> In (File.key file) (map File.key files0).
Proof.
  unfold isDuplicate. rewrite existsb_exists, in_map_iff. split.
  - intros [f [Hin Heq]]. exists f. split; [|exact Hin].
    apply andb_true_iff in Heq as [Hn Hs].
    apply String.eqb_eq in Hn. apply N.eqb_eq in Hs.
    unfold File.key. congruence.
  - intros [f [Heq Hin]]. exists f. split; [exact Hin|].
    unfold File.key in Heq. inversion Heq as [[Hn Hs]].
    rewrite String.eqb_refl, N.eqb_refl. reflexivity.
Qed.

(** The duplicate half of the batch invariant holds for the offers that do
    not themselves repeat a key: the gate compares with the rendered batch
    only, not with the files staged earlier in the same offer. *)
Lemma addFiles_fold_NoDup files0 newFiles : forall acc,
  NoDup (map File.key (files0 ++ filesToAdd acc)) ->
  NoDup (map File.key newFiles) ->
  (forall x y, In x (filesToAdd acc) -> In y newFiles -> File.key x <> File.key y) ->
  NoDup (map File.key
           (files0 ++ filesToAdd (fold_left (addFiles_each files0) newFiles acc))).
Proof.
  induction newFiles as [|file rest IH]; intros acc Hnd Hnew Hdisj; simpl.
  - exact Hnd.
  - simpl in Hnew. apply NoDup_cons_iff in Hnew as [Hfresh Hrest].
    apply IH; [|exact Hrest|].
    + unfold addFiles_each.
      destruct (MAX_FILES <=? _)%nat; [exact Hnd|].
      destruct (isDocx file) ; simpl; [|exact Hnd].
      destruct (isDuplicate files0 file) eqn:Hdup; simpl; [exact Hnd|].
      rewrite app_assoc, map_app. simpl.
      apply NoDup_app.
      * exact Hnd.
      * constructor; [intros []|constructor].
      * intros k Hk [Hk'|[]]. subst k.
        rewrite map_app in Hk. apply in_app_or in Hk as [Hk|Hk].
        -- apply isDuplicate_In in Hk. congruence.
        -- apply in_map_iff in Hk as [x [Hx Hin]].
           apply (Hdisj x file Hin (or_introl eq_refl)). exact Hx.
    + intros x y Hx Hy.
      unfold addFiles_each in Hx.
      destruct (MAX_FILES <=? _)%nat; simpl in Hx;
        [apply Hdisj; [exact Hx | right; exact Hy]|].
      destruct (isDocx file && negb (isDuplicate files0 file)); simpl in Hx;
        [|apply Hdisj; [exact Hx | right; exact Hy]].
      apply in_app_or in Hx as [Hx|[Hx|[]]].
      * apply Hdisj; [exact Hx | right; exact Hy].
      * subst x. intros Heq. apply Hfresh. rewrite Heq. apply in_map. exact Hy.
Qed.

Lemma offer_NoDup st newFiles :
  NoDup (map File.key (files st)) ->
  NoDup (map File.key newFiles) ->
  NoDup (map File.key (files (offer st newFiles))).
Proof.
  intros Hst Hnew. unfold offer. rewrite addFiles_files.
  destruct (MAX_FILES <=? _)%nat; [exact Hst|].
  apply addFiles_fold_NoDup; simpl.
  - rewrite app_nil_r. exact Hst.
  - exact Hnew.
  - intros x y [].
Qed.

Lemma addFiles_status files0 newFiles st :
  status (addFiles files0 newFiles st) =
    if (MAX_FILES <=? List.length files0)%nat then status_error msg_already_full
    else
      let r := addFiles_loop files0 newFiles in
      if limitReached r && (0 <? List.length (filesToAdd r))%nat
      then status_error (msg_partially_added (List.length (filesToAdd r)))
      else if limitReached r then status_error msg_none_added
      else status_idle.
Proof. addFiles_branches files0. Qed.

Lemma msg_partially_added_not_full n : msg_partially_added n <> msg_already_full.
Proof. unfold msg_partially_added, msg_already_full. simpl. discriminate. Qed.

Lemma msg_partially_added_not_none n : msg_partially_added n <> msg_none_added.
Proof.
  unfold msg_partially_added, msg_none_added, JsString.ofNat. simpl.
  intros H. injection H as H.
  destruct (Nat.to_uint n); simpl in H; discriminate.
Qed.

(** C1 (the batch never exceeds 30 files and never holds two files with the
    same name and size, also when both come in one offer).  The capacity half
    holds ([offers_capacity_initial]) and so does the duplicate half for
    offers without repeated keys ([offer_NoDup]); but one offer of two files
    with the same name and size, made to the empty batch, stages both: the
    batch then holds two files with one key. *)
Theorem offer_takes_duplicates_of_one_offer :
  files (offers initial [[report_v1; report_v2]]) = [report_v1; report_v2]
  /\ File.key report_v1 = File.key report_v2
  /\ ~ NoDup (map File.key (files (offers initial [[report_v1; report_v2]]))).
Proof.
  split; [reflexivity|]. split; [reflexivity|].
  intros H. vm_compute in H. inversion H as [|k l Hin _]. apply Hin. left. reflexivity.
Qed.

(** An offer of files that all pass the two gates, larger than the room
    [R > 0] of the batch: what [addFiles] of [App.tsx] appends and reports. *)
Lemma offer_partial st newFiles :
  forallb isDocx newFiles = true ->
  forallb (fun f => negb (isDuplicate (files st) f)) newFiles = true ->
  0 < MAX_FILES - List.length (files st) ->
  MAX_FILES - List.length (files st) < List.length newFiles ->
  let R := MAX_FILES - List.length (files st) in
  files (offer st newFiles) = files st ++ firstn R newFiles
  /\ List.length (files (offer st newFiles)) = List.length (files st) + R
  /\ status (offer st newFiles) = status_error (msg_partially_added R)
  /\ (forall full anyFiles,
        MAX_FILES <= List.length (files full) ->
        files (offer full anyFiles) = files full
        /\ status (offer full anyFiles) = status_error msg_already_full)
  /\ msg_partially_added R <> msg_already_full.
Proof.
  intros Hdocx Hnodup Hroom Hmore R.
  assert (Hpass : forallb (fun f => negb (dropped (files st) f)) newFiles = true).
  { apply forallb_forall. intros f Hf. unfold dropped. rewrite negb_involutive.
    rewrite forallb_forall in Hdocx, Hnodup.
    rewrite (Hdocx f Hf), (Hnodup f Hf). reflexivity. }
  assert (Hloop : addFiles_loop (files st) newFiles =
                  {| filesToAdd := firstn R newFiles; limitReached := true |}).
  { unfold addFiles_loop. rewrite (addFiles_fold_all_pass (files st) newFiles _ Hpass).
    cbn [filesToAdd limitReached List.length app orb]. rewrite Nat.add_0_r.
    fold R. f_equal. apply Nat.ltb_lt. exact Hmore. }
  assert (Hlen : List.length (firstn R newFiles) = R).
  { rewrite length_firstn. lia. }
  assert (Hfree : (MAX_FILES <=? List.length (files st))%nat = false).
  { apply Nat.leb_gt. lia. }
  repeat split.
  - unfold offer. rewrite addFiles_files, Hfree, Hloop. reflexivity.
  - unfold offer. rewrite addFiles_files, Hfree, Hloop. cbn [filesToAdd].
    rewrite length_app, Hlen. reflexivity.
  - unfold offer. rewrite addFiles_status, Hfree, Hloop.
    cbn [filesToAdd limitReached andb]. rewrite Hlen.
    replace (0 <? R)%nat with true by (symmetry; apply Nat.ltb_lt; exact Hroom).
    reflexivity.
  - unfold offer. rewrite addFiles_files.
    replace (MAX_FILES <=? List.length (files full))%nat with true
      by (symmetry; apply Nat.leb_le; assumption).
    reflexivity.
  - unfold offer. rewrite addFiles_status.
    replace (MAX_FILES <=? List.length (files full))%nat with true
      by (symmetry; apply Nat.leb_le; assumption).
    reflexivity.
  - apply msg_partially_added_not_full.
Qed.

(** The same offer in the earlier variant: every file is appended. *)
Lemma legacy_fold_all_pass files0 newFiles : forall acc,
  forallb (fun f => negb (dropped files0 f)) newFiles = true ->
  fold_left (Legacy.addFiles_each files0) newFiles acc = acc ++ newFiles.
Proof.
  induction newFiles as [|file rest IH]; intros acc Hall; cbn [fold_left].
  - rewrite app_nil_r. reflexivity.
  - simpl in Hall. apply andb_true_iff in Hall as [Hp Hrest].
    unfold dropped in Hp. rewrite negb_involutive in Hp.
    rewrite (IH _ Hrest). unfold Legacy.addFiles_each. rewrite Hp.
    rewrite <- app_assoc. reflexivity.
Qed.

(** C4, as the earlier variant contradicts it: a batch of twenty-nine files
    has room for one; two documents that pass both gates are offered; the
    earlier variant appends both, the batch holds thirty-one files, and the
    status is [idle], not an error about the limit. *)
Lemma legacy_offer_ignores_capacity :
  MAX_FILES - List.length twenty_nine = 1
  /\ forallb isDocx [numbered 30; numbered 31] = true
  /\ forallb (fun f => negb (isDuplicate twenty_nine f)) [numbered 30; numbered 31] = true
  /\ files (Legacy.addFiles twenty_nine [numbered 30; numbered 31] (holding twenty_nine))
     = twenty_nine ++ [numbered 30; numbered 31]
  /\ List.length
       (files (Legacy.addFiles twenty_nine [numbered 30; numbered 31] (holding twenty_nine)))
     <> List.length twenty_nine + 1
  /\ status (Legacy.addFiles twenty_nine [numbered 30; numbered 31] (holding twenty_nine))
     = {| message := EmptyString; type := idle |}.
Proof.
  split; [reflexivity|]. split; [vm_compute; reflexivity|].
  split; [vm_compute; reflexivity|]. split; [vm_compute; reflexivity|].
  split; [vm_compute; discriminate|]. reflexivity.
Qed.

(** C4 (partial admission), amended.  An offer of files that all pass the
    type gate and the duplicate gate, made to a batch with room [R],
    [0 < R], smaller than the number of offered files.  In [App.tsx] exactly
    the first [R] of them are appended and the status is an error whose
    message reports the limit and the [R] additions; a batch that is already
    full answers every offer with an error that carries another message, and
    takes nothing.  In the earlier variant, which has no capacity test, all
    the offered files are appended and the status is [idle]. *)
Theorem offer_partial_admission st newFiles :
  forallb isDocx newFiles = true ->
  forallb (fun f => negb (isDuplicate (files st) f)) newFiles = true ->
  0 < MAX_FILES - List.length (files st) ->
  MAX_FILES - List.length (files st) < List.length newFiles ->
  let R := 30 - List.length (files st) in
  files (offer st newFiles) = files st ++ firstn R newFiles
  /\ List.length (files (offer st newFiles)) = List.length (files st) + R
  /\ type (status (offer st newFiles)) = error
  /\ message (status (offer st newFiles))
     = ("Limite de 30 arquivos atingido. " ++ JsString.ofNat R
          ++ " arquivo(s) foram adicionados.")%string
  /\ (forall full anyFiles,
        30 <= List.length (files full) ->
        files (offer full anyFiles) = files full
        /\ type (status (offer full anyFiles)) = error
        /\ message (status (offer full anyFiles))
           = "Você já atingiu o limite de 30 arquivos.")
  /\ message (status (offer st newFiles)) <> "Você já atingiu o limite de 30 arquivos."
  /\ files (Legacy.addFiles (files st) newFiles st) = files st ++ newFiles
  /\ status (Legacy.addFiles (files st) newFiles st)
     = {| message := EmptyString; type := idle |}.
Proof.
  intros Hdocx Hnodup Hroom Hmore R.
  destruct (offer_partial st newFiles Hdocx Hnodup Hroom Hmore)
    as [Hfiles [Hlen [Hstatus [Hfull Hdiff]]]].
  assert (Hpass : forallb (fun f => negb (dropped (files st) f)) newFiles = true).
  { apply forallb_forall. intros f Hf. unfold dropped. rewrite negb_involutive.
    rewrite forallb_forall in Hdocx, Hnodup.
    rewrite (Hdocx f Hf), (Hnodup f Hf). reflexivity. }
  split; [exact Hfiles|]. split; [exact Hlen|].
  split; [rewrite Hstatus; reflexivity|].
  split; [rewrite Hstatus; reflexivity|].
  split.
  { intros full anyFiles Hge. destruct (Hfull full anyFiles Hge) as [Hf Hs].
    split; [exact Hf|]. rewrite Hs. split; reflexivity. }
  split.
  { rewrite Hstatus. exact (@msg_partially_added_not_full _). }
  unfold Legacy.addFiles. cbn [files status setFiles setStatus].
  rewrite (legacy_fold_all_pass (files st) newFiles [] Hpass). split; reflexivity.
Qed.

Lemma offer_partial_admission_witness :
  files (offer initial thirty_one) = firstn 30 thirty_one
  /\ type (status (offer initial thirty_one)) = error
  /\ message (status (offer initial thirty_one))
     = "Limite de 30 arquivos atingido. 30 arquivo(s) foram adicionados."
  /\ files (Legacy.addFiles (files initial) thirty_one initial) = thirty_one.
Proof.
  assert (H0 : forallb isDocx thirty_one = true) by (vm_compute; reflexivity).
  assert (H1 : forallb (fun f => negb (isDuplicate (files initial) f)) thirty_one = true)
    by (vm_compute; reflexivity).
  assert (H2 : 0 < MAX_FILES - List.length (files initial)) by (vm_compute; lia).
  assert (H3 : MAX_FILES - List.length (files initial) < List.length thirty_one)
    by (vm_compute; lia).
  pose proof (offer_partial_admission initial thirty_one H0 H1 H2 H3) as H.
  cbv zeta in H. destruct H as [Hf [_ [Ht [Hm [_ [_ [Hl _]]]]]]].
  split; [exact Hf|]. split; [exact Ht|]. split; [exact Hm|]. exact Hl.
Defined.

Lemma filter_indexed_skip {A : Type} (index : Z) (l : list A) : forall start,
  filter_indexed (fun _ i => negb (Z.eqb i index)) start l =
    if ((start <=? index) && (index <? start + Z.of_nat (List.length l)))%Z
    then firstn (Z.to_nat (index - start)) l ++ skipn (S (Z.to_nat (index - start))) l
    else l.
Proof.
  induction l as [|x rest IH]; intros start.
  - simpl. destruct (_ && _); [|reflexivity].
    rewrite firstn_nil. reflexivity.
  - cbn [filter_indexed]. rewrite IH. clear IH.
    destruct (Z.eqb_spec start index) as [Heq|Hne]; cbn [negb].
    + subst index.
      replace ((start + 1 <=? start) && (start <? start + 1 + Z.of_nat (List.length rest)))%Z
        with false by (symmetry; apply andb_false_iff; left; apply Z.leb_gt; lia).
      replace ((start <=? start) && (start <? start + Z.of_nat (List.length (x :: rest))))%Z
        with true
        by (symmetry; apply andb_true_iff; split;
            [apply Z.leb_le | apply Z.ltb_lt; cbn [List.length]]; lia).
      rewrite Z.sub_diag. reflexivity.
    + destruct ((start + 1 <=? index) && (index <? start + 1 + Z.of_nat (List.length rest)))%Z
        eqn:Hin.
      * apply andb_true_iff in Hin as [Hlo Hhi].
        apply Z.leb_le in Hlo. apply Z.ltb_lt in Hhi.
        replace ((start <=? index) && (index <? start + Z.of_nat (List.length (x :: rest))))%Z
          with true
          by (symmetry; apply andb_true_iff; split;
              [apply Z.leb_le | apply Z.ltb_lt; cbn [List.length]]; lia).
        replace (Z.to_nat (index - start)) with (S (Z.to_nat (index - (start + 1)))) by lia.
        reflexivity.
      * replace ((start <=? index) && (index <? start + Z.of_nat (List.length (x :: rest))))%Z
          with false; [reflexivity|].
        symmetry. apply andb_false_iff. apply andb_false_iff in Hin as [Hlo|Hhi].
        -- left. apply Z.leb_gt. apply Z.leb_gt in Hlo. lia.
        -- right. apply Z.ltb_ge. apply Z.ltb_ge in Hhi. cbn [List.length]. lia.
Qed.

(** C5 (removal by position).  [removeFile] is a total function of the state:
    for an index outside [0, length) the batch is the one before, for an index
    inside it the batch is the one before without the file at that position,
    the files before and after it in their order; nothing else of the state
    changes. *)
Theorem removeFile_by_position st index :
  files (removeFile index st) =
    (if ((0 <=? index) && (index <? Z.of_nat (List.length (files st))))%Z
     then firstn (Z.to_nat index) (files st) ++ skipn (S (Z.to_nat index)) (files st)
     else files st)
  /\ status (removeFile index st) = status st
  /\ isLoading (removeFile index st) = isLoading st
  /\ isDragging (removeFile index st) = isDragging st.
Proof.
  repeat split. unfold removeFile. cbn [files setFiles].
  rewrite filter_indexed_skip. rewrite Z.add_0_l, Z.sub_0_r. reflexivity.
Qed.

(** C10 (an admission attempt overwrites the status).  Whatever the status
    was, the status after [addFiles] is a function of the rendered batch and
    of the offer alone; it is [idle] or an error with one of the three
    capacity messages; and an offer whose files are all dropped by the type
    or the duplicate gate, made below capacity, leaves [idle] and the batch
    as it was. *)
Theorem addFiles_resets_status files0 newFiles :
  (forall st1 st2,
     status (addFiles files0 newFiles st1) = status (addFiles files0 newFiles st2))
  /\ (forall st,
        status (addFiles files0 newFiles st) = status_idle
        \/ status (addFiles files0 newFiles st) = status_error msg_already_full
        \/ (exists n, 0 < n
                      /\ status (addFiles files0 newFiles st)
                         = status_error (msg_partially_added n))
        \/ status (addFiles files0 newFiles st) = status_error msg_none_added)
  /\ (forall st,
        List.length files0 < MAX_FILES ->
        forallb (dropped files0) newFiles = true ->
        status (addFiles files0 newFiles st) = status_idle
        /\ files (addFiles files0 newFiles st) = files st).
Proof.
  split; [|split].
  - intros st1 st2. rewrite !addFiles_status. reflexivity.
  - intros st. rewrite addFiles_status.
    destruct (MAX_FILES <=? List.length files0)%nat; [right; left; reflexivity|].
    cbv zeta.
    destruct (limitReached (addFiles_loop files0 newFiles)); cbn [andb].
    + destruct (Nat.ltb_spec 0 (List.length (filesToAdd (addFiles_loop files0 newFiles)))).
      * right; right; left. eexists. split; [eassumption|reflexivity].
      * right; right; right. reflexivity.
    + left. reflexivity.
  - intros st Hroom Hall.
    assert (Hloop : addFiles_loop files0 newFiles
                    = {| filesToAdd := []; limitReached := false |}).
    { unfold addFiles_loop. apply addFiles_fold_all_dropped; [simpl; lia | exact Hall]. }
    rewrite addFiles_status, addFiles_files, Hloop.
    replace (MAX_FILES <=? List.length files0)%nat with false
      by (symmetry; apply Nat.leb_gt; exact Hroom).
    cbn. rewrite app_nil_r. split; reflexivity.
Qed.

Lemma addFiles_resets_status_witness :
  status (addFiles [report_v1] [notes_txt; report_v1]
            (setStatus (status_success msg_success)
               (setFiles (fun _ => [report_v1]) initial))) = status_idle.
Proof.
  refine (proj1 (proj2 (proj2 (addFiles_resets_status [report_v1] [notes_txt; report_v1]))
                   _ _ _)).
  - vm_compute. lia.
  - vm_compute. reflexivity.
Defined.

(** ** The filename pattern: the search and its declarative reading *)

Module Pattern.
Import ContentDisposition.

Lemma append_assoc (a b c : string) : ((a ++ b) ++ c = a ++ (b ++ c))%string.
Proof. induction a as [|x a IH]; simpl; [reflexivity | rewrite IH; reflexivity]. Qed.

Lemma length_append (a b : string) :
  String.length (a ++ b) = String.length a + String.length b.
Proof. induction a as [|x a IH]; simpl; [reflexivity | rewrite IH; reflexivity]. Qed.

(** Two splits of one string at the same position are the same split. *)
Lemma append_inj (a b c d : string) :
  (a ++ b = c ++ d)%string -> String.length a = String.length c -> a = c /\ b = d.
Proof.
  revert c. induction a as [|x a IH]; intros [|y c] H Hlen; simpl in *;
    try discriminate.
  - split; [reflexivity | exact H].
  - injection H as Hx H. injection Hlen as Hlen.
    destruct (IH c H Hlen) as [-> ->]. subst y. split; reflexivity.
Qed.

Lemma strip_spec p : forall s rest,
  strip p s = Some rest <-> s = (p ++ rest)%string.
Proof.
  induction p as [|a p IH]; intros s rest; simpl.
  - split; [intros [= ->]; reflexivity | intros ->; reflexivity].
  - destruct s as [|b s].
    + split; discriminate.
    + destruct (Ascii.eqb_spec a b) as [->|Hne].
      * rewrite IH. split; [intros ->; reflexivity | intros [= ->]; reflexivity].
      * split; [discriminate | intros [= Hab _]; congruence].
Qed.

Lemma lazy_more_sound s : forall v,
  lazy_more s = Some v ->
  exists post, s = (v ++ String dquote post)%string /\ all_dot v.
Proof.
  induction s as [|c s IH]; intros v H; simpl in H; [discriminate|].
  destruct (Ascii.eqb_spec c dquote) as [->|Hq].
  - injection H as <-. exists s. split; [reflexivity | exact I].
  - destruct (dot c) eqn:Hdot; [|discriminate].
    destruct (lazy_more s) as [v0|]; [|discriminate].
    injection H as <-. destruct (IH v0 eq_refl) as [post [-> Hall]].
    exists post. split; [reflexivity | split; assumption].
Qed.

Lemma lazy_more_complete v' : forall s post,
  s = (v' ++ String dquote post)%string -> all_dot v' ->
  exists v, lazy_more s = Some v /\ String.length v <= String.length v'.
Proof.
  induction v' as [|c v' IH]; intros s post -> Hall; simpl.
  - try rewrite Ascii.eqb_refl. exists EmptyString. split; [reflexivity | simpl; lia].
  - destruct (Ascii.eqb_spec c dquote) as [->|Hq].
    + exists EmptyString. split; [reflexivity | simpl; lia].
    + destruct Hall as [Hc Hall]. rewrite Hc.
      destruct (IH _ post eq_refl Hall) as [v [-> Hlen]].
      exists (String c v). split; [reflexivity | simpl; lia].
Qed.

Lemma group_sound s v :
  group s = Some v ->
  exists post, s = (v ++ String dquote post)%string /\ v <> EmptyString /\ all_dot v.
Proof.
  destruct s as [|c s]; simpl; [discriminate|].
  destruct (dot c) eqn:Hdot; [|discriminate].
  destruct (lazy_more s) as [v0|] eqn:Hm; [|discriminate].
  intros [= <-]. destruct (lazy_more_sound _ Hm) as [post [-> Hall]].
  exists post. repeat split; [discriminate | assumption | assumption].
Qed.

Lemma group_complete s v' post :
  s = (v' ++ String dquote post)%string -> v' <> EmptyString -> all_dot v' ->
  exists v, group s = Some v /\ String.length v <= String.length v'.
Proof.
  intros -> Hne Hall. destruct v' as [|c v']; [congruence|].
  destruct Hall as [Hc Hall]. simpl. rewrite Hc.
  destruct (lazy_more_complete v' post eq_refl Hall) as [v [-> Hlen]].
  exists (String c v). split; [reflexivity | simpl; lia].
Qed.

Lemma match_here_sound s v : match_here s = Some v -> matches_with s v.
Proof.
  unfold match_here. destruct (strip head s) as [rest|] eqn:Hs; [|discriminate].
  intros Hg. apply strip_spec in Hs. subst s.
  destruct (group_sound _ Hg) as [post [-> [Hne Hall]]].
  exists post. repeat split; assumption.
Qed.

Lemma match_here_complete s v' :
  matches_with s v' ->
  exists v, match_here s = Some v /\ String.length v <= String.length v'.
Proof.
  intros [post [-> [Hne Hall]]]. unfold match_here.
  rewrite (proj2 (strip_spec head _ _) eq_refl).
  exact (group_complete post eq_refl Hne Hall).
Qed.

Lemma match_here_shortest s v :
  match_here s = Some v ->
  forall v', matches_with s v' -> String.length v <= String.length v'.
Proof.
  intros H v' Hm. destruct (match_here_complete Hm) as [v0 [H0 Hlen]].
  congruence.
Qed.

(** The search returns the capture of the pattern ... *)
Lemma match_sound h : forall arr,
  match_ h = Some arr ->
  exists v, arr = [(head ++ v ++ String dquote EmptyString)%string; v] /\ captures h v.
Proof.
  induction h as [|c h IH]; intros arr; cbn [match_].
  - destruct (match_here EmptyString) as [v|] eqn:Hh; [|discriminate].
    vm_compute in Hh. discriminate.
  - destruct (match_here (String c h)) as [v|] eqn:Hh.
    + intros [= <-]. exists v. split; [reflexivity|].
      exists EmptyString, (String c h). repeat split.
      * apply match_here_sound, Hh.
      * intros pre' s' v' _ Hlt. simpl in Hlt. lia.
      * apply match_here_shortest, Hh.
    + intros Hrec. destruct (IH arr Hrec) as [v [-> [pre [s [-> [Hm [Hleft Hshort]]]]]]].
      exists v. split; [reflexivity|].
      exists (String c pre), s. repeat split.
      * exact Hm.
      * intros [|c' pre'] s' v' Heq Hlt Hm'.
        -- simpl in Heq. subst s'.
           destruct (match_here_complete Hm') as [v0 [H0 _]]. congruence.
        -- simpl in Heq. injection Heq as _ Heq. simpl in Hlt.
           apply (Hleft pre' s' v' Heq); [lia | exact Hm'].
      * exact Hshort.
Qed.

(** ... and returns [null] only when the pattern occurs nowhere. *)
Lemma match_none h :
  match_ h = None -> forall pre s v, h = (pre ++ s)%string -> ~ matches_with s v.
Proof.
  induction h as [|c h IH]; cbn [match_]; intros H pre s v Heq Hm.
  - destruct pre; [|discriminate]. simpl in Heq. subst s.
    destruct (match_here_complete Hm) as [v0 [H0 _]]. vm_compute in H0. discriminate.
  - destruct (match_here (String c h)) as [v1|] eqn:Hh; [discriminate|].
    destruct pre as [|c' pre].
    + simpl in Heq. subst s.
      destruct (match_here_complete Hm) as [v0 [H0 _]]. congruence.
    + simpl in Heq. injection Heq as _ Heq.
      exact (IH H pre s v Heq Hm).
Qed.

(** What is captured is determined by the string. *)
Lemma captures_unique h v1 v2 : captures h v1 -> captures h v2 -> v1 = v2.
Proof.
  intros [p1 [s1 [E1 [M1 [L1 S1]]]]] [p2 [s2 [E2 [M2 [L2 S2]]]]].
  assert (Hlen : String.length p1 = String.length p2).
  { destruct (Nat.lt_trichotomy (String.length p1) (String.length p2)) as [Hlt|[Heq|Hgt]].
    - exfalso. exact (L2 p1 s1 v1 E1 Hlt M1).
    - exact Heq.
    - exfalso. exact (L1 p2 s2 v2 E2 Hgt M2). }
  rewrite E1 in E2. destruct (append_inj _ _ _ _ E2 Hlen) as [_ Hs]. subst s2.
  pose proof (S1 v2 M2) as H12. pose proof (S2 v1 M1) as H21.
  destruct M1 as [post1 [Ea _]]. destruct M2 as [post2 [Eb _]].
  rewrite Ea in Eb.
  destruct (append_inj _ _ _ _ Eb eq_refl) as [_ Eb'].
  apply append_inj in Eb'; [tauto | lia].
Qed.

Lemma match_captures h v :
  match_ h = Some [(head ++ v ++ String dquote EmptyString)%string; v] <-> captures h v.
Proof.
  split.
  - intros H. destruct (match_sound _ H) as [v0 [Harr Hc]].
    injection Harr as _ ->. exact Hc.
  - intros Hc. destruct (match_ h) as [arr|] eqn:Hm.
    + destruct (match_sound _ Hm) as [v0 [-> Hc0]].
      rewrite (captures_unique Hc Hc0). reflexivity.
    + exfalso. destruct Hc as [pre [s [E [M _]]]].
      eapply match_none; eassumption.
Qed.

End Pattern.

(** ** Submission *)

Arguments ok : simpl never.

Lemma handleSubmit_catch_run e w :
  handleSubmit_catch e w =
    (inr tt,
     {| app := setStatus (status_error (catch_message e)) (app w);
        trace := trace w ++ [ConsoleError "Erro na conversão:" (JsError.message e)] |}).
Proof.
  unfold handleSubmit_catch, catch_message, bind, emit, set. cbn [app trace].
  destruct (JsString.includes _ _); [reflexivity|].
  destruct (String.eqb _ _); reflexivity.
Qed.

Lemma length_eqb_0 {A} (l : list A) : l <> [] -> (List.length l =? 0)%nat = false.
Proof. destruct l; [congruence | reflexivity]. Qed.

(** [handleSubmit] on a non-empty batch, case by case of what the platform
    answers. *)
Lemma handleSubmit_run batch P st :
  batch <> [] ->
  run (handleSubmit batch P) st =
    let st1 := setStatus status_idle (setIsLoading true st) in
    match fetch_result P with
    | inl e => failed st1 [request P batch] e
    | inr r =>
        if ok r then
          match blob_result r with
          | inl e => failed st1 [request P batch] e
          | inr b =>
              match createObjectURL_result P with
              | inl e => failed st1 [request P batch] e
              | inr url =>
                  let filename := resolveFilename (content_disposition r) in
                  (inr tt,
                   {| app := setIsLoading false
                               (clearAll (setStatus (status_success msg_success) st1));
                      trace := [request P batch;
                                ObjectURLCreated b url;
                                AnchorAppended url filename;
                                AnchorClicked url filename;
                                ObjectURLRevoked url;
                                AnchorRemoved] |})
              end
          end
        else
          match text_result r with
          | inl e => failed st1 [request P batch] e
          | inr errorText =>
              failed st1 [request P batch; ConsoleError "Erro do servidor:" errorText]
                (JsError.Error "server_error")
          end
    end.
Proof.
  intros Hne. unfold run, handleSubmit. rewrite (length_eqb_0 Hne).
  unfold handleSubmit_try, download, fetch_send, failed, request.
  unfold try_catch_finally, bind, set, emit, await, throw, ret.
  cbn [app trace fst snd].
  destruct (fetch_result P) as [e|r].
  - rewrite handleSubmit_catch_run. reflexivity.
  - destruct (ok r); cbn [negb].
    + destruct (blob_result r) as [e|b].
      * rewrite handleSubmit_catch_run. reflexivity.
      * destruct (createObjectURL_result P) as [e|url].
        -- rewrite handleSubmit_catch_run. reflexivity.
        -- reflexivity.
    + destruct (text_result r) as [e|errorText].
      * rewrite handleSubmit_catch_run. reflexivity.
      * rewrite handleSubmit_catch_run. reflexivity.
Qed.

(** The two halves of [handleSubmit] compose to the whole. *)
Lemma handleSubmit_sync_async batch P w :
  batch <> [] ->
  handleSubmit batch P w = bind (handleSubmit_sync batch P) (fun _ => handleSubmit_async P) w.
Proof.
  intros Hne. unfold handleSubmit, handleSubmit_sync, handleSubmit_async.
  rewrite (length_eqb_0 Hne).
  unfold try_catch_finally, bind, set, fetch_send, emit. reflexivity.
Qed.

(** C3 (empty submission).  With an empty batch [handleSubmit] returns at
    once and normally: the status is an error whose message asks for a file,
    the batch, the loading flag and the drag highlight are what they were
    (the component does not enter loading), and the trace is empty: no
    request is issued.  The earlier variant does the same with its own
    wording. *)
Theorem submit_empty_batch st P :
  files st = [] ->
  let w := snd (submit st P) in
  let w' := snd (run (Legacy.handleSubmit (files st) P) st) in
  fst (submit st P) = inr tt
  /\ trace w = []
  /\ type (status (app w)) = error
  /\ message (status (app w)) = "Opa! Você precisa selecionar um arquivo .docx primeiro."
  /\ files (app w) = []
  /\ isLoading (app w) = isLoading st
  /\ isDragging (app w) = isDragging st
  /\ trace w' = []
  /\ type (status (app w')) = error
  /\ message (status (app w')) = "Por favor, selecione pelo menos um arquivo .docx"
  /\ files (app w') = []
  /\ isLoading (app w') = isLoading st.
Proof.
  intros H. cbv zeta. unfold submit, run, handleSubmit, Legacy.handleSubmit.
  rewrite H. cbn [List.length Nat.eqb set fst snd app trace].
  cbn [setStatus files isLoading isDragging status type message status_error].
  repeat split; exact H.
Qed.

Lemma submit_empty_batch_witness :
  trace (snd (submit initial local_platform)) = []
  /\ type (status (app (snd (submit initial local_platform)))) = error.
Proof.
  destruct (@submit_empty_batch initial local_platform eq_refl)
    as [_ [Htrace [Htype _]]].
  split; [exact Htrace | exact Htype].
Defined.

(** A transfer that succeeds: a response with a 2xx status whose body reads
    as a blob, saved under the resolved filename.  The state it ends in has
    the batch cleared, and the status that [clearAll] writes last. *)
Lemma submit_success st P r b url :
  files st <> [] ->
  fetch_result P = inr r -> ok r = true ->
  blob_result r = inr b -> createObjectURL_result P = inr url ->
  submit st P =
    (inr tt,
     {| app := {| files := []; isLoading := false; status := status_idle;
                  isDragging := isDragging st |};
        trace := [request P (files st);
                  ObjectURLCreated b url;
                  AnchorAppended url (resolveFilename (content_disposition r));
                  AnchorClicked url (resolveFilename (content_disposition r));
                  ObjectURLRevoked url;
                  AnchorRemoved] |}).
Proof.
  intros Hne Hf Hok Hb Hu. unfold submit. rewrite (handleSubmit_run P st Hne).
  cbv zeta. rewrite Hf, Hok, Hb, Hu. reflexivity.
Qed.

(** C2 (scenario A: success).  On the ten documents and a 200 response with
    the header that names out.zip, the save is triggered with out.zip and the
    batch becomes empty, as the claim says; but the status the exchange ends
    with is [idle] with the empty message, not [success]: [handleSubmit] sets
    the success status and then calls [clearAll], whose [setStatus] is the
    last one. *)
Theorem submit_success_status_is_idle :
  let w := snd (submit (holding ten_documents) (answering archive_response)) in
  In (AnchorClicked "blob:5f1c" "out.zip") (trace w)
  /\ files (app w) = []
  /\ status (app w) = {| message := EmptyString; type := idle |}
  /\ status (app w) <> status_success msg_success.
Proof.
  rewrite (@submit_success (holding ten_documents) (answering archive_response)
             archive_response {| blob_id := 1 |} "blob:5f1c");
    try reflexivity; [|discriminate].
  cbn [snd app trace files status].
  repeat split.
  - right; right; right; left. reflexivity.
  - discriminate.
Qed.

Lemma failed_app st1 tr e :
  app (snd (failed st1 tr e))
  = setIsLoading false (setStatus (status_error (catch_message e)) st1).
Proof. reflexivity. Qed.

(** A failed exchange ends in [failed] for some error. *)
Lemma submit_failure st P :
  files st <> [] -> transfer_fails P = true ->
  exists tr e,
    submit st P = failed (setStatus status_idle (setIsLoading true st)) tr e.
Proof.
  intros Hne Hfail. unfold submit. rewrite (handleSubmit_run P st Hne). cbv zeta.
  unfold transfer_fails in Hfail.
  destruct (fetch_result P) as [e|r]; [eauto|].
  destruct (ok r); cbn [negb orb] in Hfail.
  - destruct (blob_result r) as [e|b]; [eauto|].
    destruct (createObjectURL_result P) as [e|url]; [eauto|discriminate].
  - destruct (text_result r) as [e|t]; eauto.
Qed.

(** C6 (a failed transfer keeps the batch).  When the exchange fails, in any
    of the ways it can, [handleSubmit] returns normally; the batch is the one
    that was submitted, the status is an error, the component has left
    loading; the Converter button responds again, and a new click sends the
    same files. *)
Theorem failed_transfer_keeps_batch st P :
  files st <> [] -> transfer_fails P = true ->
  let w := snd (submit st P) in
  fst (submit st P) = inr tt
  /\ files (app w) = files st
  /\ type (status (app w)) = error
  /\ isLoading (app w) = false
  /\ (forall P', reaches {| world := w; pending := [] |} (ConvertClick P') = true)
  /\ (forall P', In (request P' (files st)) (trace (snd (submit (app w) P')))).
Proof.
  intros Hne Hfail. destruct (submit_failure st P Hne Hfail) as [tr [e Hrun]].
  cbv zeta. rewrite Hrun.
  assert (Hfiles : files (app (snd (failed (setStatus status_idle (setIsLoading true st)) tr e)))
                   = files st) by reflexivity.
  repeat split.
  - intros P'. unfold reaches. cbn [world]. rewrite Hfiles.
    rewrite (length_eqb_0 Hne). reflexivity.
  - intros P'. unfold submit. rewrite Hfiles.
    rewrite (handleSubmit_run P' _ Hne). cbv zeta.
    destruct (fetch_result P') as [e'|r]; [left; reflexivity|].
    destruct (ok r).
    + destruct (blob_result r); [left; reflexivity|].
      destruct (createObjectURL_result P'); left; reflexivity.
    + destruct (text_result r); left; reflexivity.
Qed.

Lemma failed_transfer_keeps_batch_witness :
  files (app (snd (submit (holding ten_documents) offline))) = ten_documents
  /\ type (status (app (snd (submit (holding ten_documents) offline)))) = error.
Proof.
  assert (Hne : files (holding ten_documents) <> []) by (vm_compute; discriminate).
  assert (Hfail : transfer_fails offline = true) by reflexivity.
  destruct (failed_transfer_keeps_batch (holding ten_documents) offline Hne Hfail)
    as [_ [Hfiles [Hstatus _]]].
  split; [exact Hfiles | exact Hstatus].
Defined.

(** Two submissions of [App.tsx] that receive responses with a status
    outside 2xx end in the same component state whatever the two bodies
    say. *)
Lemma server_text_logged_only st P1 P2 r1 r2 t1 t2 :
  files st <> [] ->
  fetch_result P1 = inr r1 -> ok r1 = false -> text_result r1 = inr t1 ->
  fetch_result P2 = inr r2 -> ok r2 = false -> text_result r2 = inr t2 ->
  app (snd (submit st P1)) = app (snd (submit st P2))
  /\ status (app (snd (submit st P1))) = status_error msg_server
  /\ trace (snd (submit st P1)) =
       [request P1 (files st);
        ConsoleError "Erro do servidor:" t1;
        ConsoleError "Erro na conversão:" "server_error"].
Proof.
  intros Hne Hf1 Hok1 Ht1 Hf2 Hok2 Ht2. unfold submit.
  rewrite (handleSubmit_run P1 st Hne), (handleSubmit_run P2 st Hne). cbv zeta.
  rewrite Hf1, Hok1, Ht1, Hf2, Hok2, Ht2.
  repeat split.
Qed.

(** The earlier variant on a response with a status outside 2xx whose body
    reads as text. *)
Lemma legacy_non_ok_status st P r t :
  files st <> [] ->
  fetch_result P = inr r -> ok r = false -> text_result r = inr t ->
  status (final (Legacy.handleSubmit (files st) P) st)
  = {| message :=
         (let shown := if JsString.truthy t then t
                       else "Erro no servidor. Verifique o console do Docker." in
          if JsString.includes shown "Failed to fetch"
          then "Erro de conexão: Não foi possível acessar o servidor. O Docker está rodando?"
          else shown);
       type := error |}.
Proof.
  intros Hne Hf Hok Ht. unfold final, run, Legacy.handleSubmit.
  rewrite (length_eqb_0 Hne).
  unfold Legacy.handleSubmit_try, Legacy.handleSubmit_catch.
  unfold try_catch_finally, bind, set, emit, await, throw, ret.
  cbn [app trace fst snd]. rewrite Hf, Hok. cbn [negb]. rewrite Ht.
  cbn [JsError.message app trace fst snd]. cbv zeta.
  unfold Legacy.msg_server_default.
  destruct (JsString.includes _ _); reflexivity.
Qed.

(** C7, as the earlier variant contradicts it: two submissions of the same
    batch receive a 500 response, with two different bodies; in the earlier
    variant each status message is the body itself, so the two messages
    differ. *)
Lemma legacy_status_follows_body :
  ok (failing_response "conversion failed: corrupt zip") = false
  /\ ok (failing_response "ENOENT: /tmp/upload_42") = false
  /\ message (status (final (Legacy.handleSubmit ten_documents
                               (answering (failing_response "conversion failed: corrupt zip")))
                        (holding ten_documents)))
     = "conversion failed: corrupt zip"
  /\ message (status (final (Legacy.handleSubmit ten_documents
                               (answering (failing_response "ENOENT: /tmp/upload_42")))
                        (holding ten_documents)))
     = "ENOENT: /tmp/upload_42"
  /\ status (final (Legacy.handleSubmit ten_documents
                      (answering (failing_response "conversion failed: corrupt zip")))
               (holding ten_documents))
     <> status (final (Legacy.handleSubmit ten_documents
                         (answering (failing_response "ENOENT: /tmp/upload_42")))
                  (holding ten_documents)).
Proof.
  split; [reflexivity|]. split; [reflexivity|].
  split; [vm_compute; reflexivity|]. split; [vm_compute; reflexivity|].
  vm_compute. discriminate.
Qed.

(** C7 (the server's text and the status), amended.  Two submissions of the
    same batch that receive responses with a status outside 2xx.  In
    [App.tsx] they end in the same component state whatever the two bodies
    say: the status is an error with the fixed server message, and the body
    goes to the console only.  In the earlier variant the status is an error
    whose message is the body itself (a fixed text for an empty body, the
    connection message for a body that contains the words Failed to
    fetch). *)
Theorem server_text_not_shown st P1 P2 r1 r2 t1 t2 :
  files st <> [] ->
  fetch_result P1 = inr r1 -> ok r1 = false -> text_result r1 = inr t1 ->
  fetch_result P2 = inr r2 -> ok r2 = false -> text_result r2 = inr t2 ->
  app (snd (submit st P1)) = app (snd (submit st P2))
  /\ type (status (app (snd (submit st P1)))) = error
  /\ message (status (app (snd (submit st P1))))
     = "Ih, deu um probleminha no servidor ao tentar converter. Tente novamente!"
  /\ trace (snd (submit st P1)) =
       [request P1 (files st);
        ConsoleError "Erro do servidor:" t1;
        ConsoleError "Erro na conversão:" "server_error"]
  /\ status (final (Legacy.handleSubmit (files st) P1) st)
     = {| message :=
            (let shown := if JsString.truthy t1 then t1
                          else "Erro no servidor. Verifique o console do Docker." in
             if JsString.includes shown "Failed to fetch"
             then "Erro de conexão: Não foi possível acessar o servidor. O Docker está rodando?"
             else shown);
          type := error |}.
Proof.
  intros Hne Hf1 Hok1 Ht1 Hf2 Hok2 Ht2.
  destruct (@server_text_logged_only st P1 P2 r1 r2 t1 t2 Hne Hf1 Hok1 Ht1 Hf2 Hok2 Ht2)
    as [Hsame [Hstatus Htrace]].
  split; [exact Hsame|].
  split; [rewrite Hstatus; reflexivity|].
  split; [rewrite Hstatus; reflexivity|].
  split; [exact Htrace|].
  exact (@legacy_non_ok_status st P1 r1 t1 Hne Hf1 Hok1 Ht1).
Qed.

Lemma server_text_not_shown_witness :
  message (status (app (snd (submit (holding ten_documents)
                               (answering (failing_response "conversion failed: corrupt zip"))))))
  = "Ih, deu um probleminha no servidor ao tentar converter. Tente novamente!"
  /\ type (status (app (snd (submit (holding ten_documents)
                               (answering (failing_response "conversion failed: corrupt zip"))))))
     = error.
Proof.
  assert (Hne : files (holding ten_documents) <> []) by (vm_compute; discriminate).
  destruct (@server_text_not_shown (holding ten_documents)
              (answering (failing_response "conversion failed: corrupt zip"))
              (answering (failing_response "ENOENT: /tmp/upload_42"))
              _ _ _ _ Hne eq_refl eq_refl eq_refl eq_refl eq_refl eq_refl)
    as [_ [Htype [Hmsg _]]].
  split; [exact Hmsg | exact Htype].
Defined.

Lemma captures_nonempty h v : ContentDisposition.captures h v -> JsString.truthy h = true.
Proof.
  intros Hc. destruct h; [|reflexivity].
  apply Pattern.match_captures in Hc. vm_compute in Hc. discriminate.
Qed.

Lemma resolveFilename_captured h v :
  ContentDisposition.captures h v -> resolveFilename (Some h) = v.
Proof.
  intros Hc. unfold resolveFilename. rewrite (captures_nonempty Hc).
  apply Pattern.match_captures in Hc. rewrite Hc. reflexivity.
Qed.

Lemma resolveFilename_default h :
  (forall v, ~ ContentDisposition.captures h v) -> resolveFilename (Some h) = DEFAULT_FILENAME.
Proof.
  intros Hno. unfold resolveFilename.
  destruct (JsString.truthy h); [|reflexivity].
  destruct (ContentDisposition.match_ h) as [arr|] eqn:Hm; [|reflexivity].
  exfalso. destruct (Pattern.match_sound _ Hm) as [v [_ Hc]]. exact (Hno v Hc).
Qed.

(** C8 (the saved filename).  After a successful response the one save of
    the exchange, the click on the anchor, carries a filename that is: the
    default archive name when the response has no Content-Disposition header;
    the group the pattern captures in the header (the leftmost occurrence of
    filename= with a quoted, non-empty value, up to the first closing quote)
    when it captures one; the default archive name when the pattern occurs
    nowhere in the header. *)
Theorem saved_filename_from_header st P r b url :
  files st <> [] ->
  fetch_result P = inr r -> ok r = true ->
  blob_result r = inr b -> createObjectURL_result P = inr url ->
  exists filename,
    trace (snd (submit st P)) =
      [request P (files st);
       ObjectURLCreated b url;
       AnchorAppended url filename;
       AnchorClicked url filename;
       ObjectURLRevoked url;
       AnchorRemoved]
    /\ DEFAULT_FILENAME = "converted-files.zip"
    /\ match content_disposition r with
       | None => filename = DEFAULT_FILENAME
       | Some h =>
           (forall v, ContentDisposition.captures h v -> filename = v)
           /\ ((forall v, ~ ContentDisposition.captures h v) -> filename = DEFAULT_FILENAME)
       end.
Proof.
  intros Hne Hf Hok Hb Hu.
  exists (resolveFilename (content_disposition r)).
  rewrite (submit_success st P Hne Hf Hok Hb Hu). cbn [snd trace].
  split; [reflexivity|]. split; [reflexivity|].
  destruct (content_disposition r) as [h|]; [|reflexivity].
  split.
  - intros v. apply resolveFilename_captured.
  - apply resolveFilename_default.
Qed.

Lemma out_zip_captured : ContentDisposition.captures out_zip_header "out.zip".
Proof. apply Pattern.match_captures. reflexivity. Qed.

Lemma saved_filename_from_header_witness :
  exists filename,
    trace (snd (submit (holding ten_documents) (answering archive_response))) =
      [request (answering archive_response) (files (holding ten_documents));
       ObjectURLCreated {| blob_id := 1 |} "blob:5f1c";
       AnchorAppended "blob:5f1c" filename;
       AnchorClicked "blob:5f1c" filename;
       ObjectURLRevoked "blob:5f1c";
       AnchorRemoved]
    /\ filename = "out.zip".
Proof.
  assert (Hne : files (holding ten_documents) <> []) by (vm_compute; discriminate).
  destruct (@saved_filename_from_header (holding ten_documents)
              (answering archive_response) archive_response
              {| blob_id := 1 |} "blob:5f1c" Hne eq_refl eq_refl eq_refl eq_refl)
    as [filename [Htrace [_ Hname]]].
  exists filename. split; [exact Htrace|].
  cbn [content_disposition archive_response] in Hname.
  exact (proj1 Hname _ out_zip_captured).
Defined.

(** The third capacity message is never shown: the loop raises the flag only
    when the capacity is filled, and the batch below capacity is filled only
    by staged files. *)
Remark addFiles_none_added_unreachable files0 newFiles st :
  status (addFiles files0 newFiles st) <> status_error msg_none_added.
Proof.
  rewrite addFiles_status.
  destruct (Nat.leb_spec MAX_FILES (List.length files0)) as [Hfull|Hfree].
  - unfold status_error, msg_already_full, msg_none_added. simpl. discriminate.
  - cbv zeta. pose proof (addFiles_loop_flag files0 newFiles) as Hflag.
    unfold flag_means_full in Hflag.
    destruct (limitReached (addFiles_loop files0 newFiles)); cbn [andb].
    + specialize (Hflag eq_refl).
      destruct (Nat.ltb_spec 0 (List.length (filesToAdd (addFiles_loop files0 newFiles)))).
      * intros H'. apply (f_equal message) in H'. cbn [message status_error] in H'.
        exact (msg_partially_added_not_none H').
      * lia.
    + discriminate.
Qed.

(** ** The workflow as a machine of events *)

Lemma try_finally_isLoading {A} (body : Js A) handler w :
  isLoading (app (snd (try_catch_finally body handler (set (setIsLoading false)) w)))
  = false.
Proof.
  unfold try_catch_finally, set.
  destruct (body w) as [[e|a] w1].
  - destruct (handler e w1) as [r2 w2]. reflexivity.
  - reflexivity.
Qed.

Lemma removeFile_isLoading index st : isLoading (removeFile index st) = isLoading st.
Proof. reflexivity. Qed.

Lemma step_one_transfer m ev : one_transfer m -> one_transfer (step m ev).
Proof.
  unfold step. destruct (reaches m ev) eqn:Hr; cbn [negb]; [|trivial].
  unfold one_transfer. intros Hinv.
  destruct ev as [fl| | |tf|i| |P| ]; cbn [update world pending app].
  - unfold handleDrop. rewrite addFiles_isLoading. exact Hinv.
  - exact Hinv.
  - exact Hinv.
  - destruct tf as [fl|]; cbn [handleFileChange];
      [rewrite addFiles_isLoading|]; exact Hinv.
  - exact Hinv.
  - exact Hinv.
  - unfold reaches in Hr. apply andb_true_iff in Hr as [Hne Hbusy].
    apply negb_true_iff, orb_false_iff in Hbusy as [Hload _].
    rewrite Hload in Hinv. rewrite Hinv.
    unfold handleSubmit_sync. apply negb_true_iff in Hne. rewrite Hne.
    reflexivity.
  - unfold reaches in Hr. destruct (pending m) as [|P rest] eqn:Hp; [discriminate|].
    cbn [world pending]. unfold handleSubmit_async. rewrite try_finally_isLoading.
    destruct (isLoading (app (world m))).
    + simpl in Hinv. destruct rest; [reflexivity | discriminate].
    + discriminate.
Qed.

Lemma steps_one_transfer evs : forall m, one_transfer m -> one_transfer (steps m evs).
Proof.
  unfold steps. induction evs as [|ev rest IH]; intros m H; simpl.
  - exact H.
  - apply IH, step_one_transfer, H.
Qed.

(** From the first render on, whatever the events, no second request leaves
    while one is pending. *)
Lemma at_most_one_pending evs : List.length (pending (steps boot evs)) <= 1.
Proof.
  pose proof (@steps_one_transfer evs boot eq_refl) as H.
  unfold one_transfer in H.
  destruct (isLoading _); [rewrite H | rewrite H]; simpl; lia.
Qed.

(** While loading, the file input, the X buttons, Limpar and Converter do
    nothing, and the drag feedback does not touch the batch ... *)
Lemma loading_blocks_controls m ev :
  isLoading (app (world m)) = true ->
  match ev with
  | Drop _ | Settle => True
  | _ => files (app (world (step m ev))) = files (app (world m))
         /\ pending (step m ev) = pending m
  end.
Proof.
  intros Hload. unfold step, reaches.
  destruct ev; try exact I; rewrite ?Hload, ?andb_false_r; cbn [negb];
    split; reflexivity.
Qed.

(** ... but the drop zone has no such guard: [onDrop] reaches [addFiles] in
    every state. *)
Lemma drop_always_reaches m dropped :
  step m (Drop dropped) = update (handleDrop (files (app (world m))) dropped) m.
Proof. reflexivity. Qed.

(** C9 (no intake while loading).  One request is pending and the component
    shows loading; a drop of one more document is taken all the same: the
    batch grows from one file to two while the request for the first is in
    flight.  The other controls are blocked ([loading_blocks_controls]) and
    no second request can leave ([at_most_one_pending]). *)
Theorem drop_while_loading_changes_batch :
  isLoading (app (world converting)) = true
  /\ pending converting = [answering archive_response]
  /\ files (app (world converting)) = [report_v1]
  /\ files (app (world (step converting (Drop [numbered 2])))) = [report_v1; numbered 2]
  /\ isLoading (app (world (step converting (Drop [numbered 2])))) = true.
Proof. repeat split. Qed.

(** ** The earlier variant *)

Lemma legacy_addFiles_unbounded :
  List.length (files (Legacy.addFiles [] thirty_one initial)) = 31.
Proof. reflexivity. Qed.

Lemma legacy_server_text_shown diagnostic :
  JsString.truthy diagnostic = true ->
  JsString.includes diagnostic "Failed to fetch" = false ->
  status (final (Legacy.handleSubmit ten_documents (answering (failing_response diagnostic)))
            (holding ten_documents))
  = status_error diagnostic.
Proof.
  intros Ht Hi. unfold final, run, Legacy.handleSubmit.
  cbn [List.length ten_documents map seq Nat.eqb].
  unfold Legacy.handleSubmit_try, Legacy.handleSubmit_catch.
  unfold try_catch_finally, bind, set, emit, await, throw, ret.
  cbn [app trace fst snd fetch_result answering failing_response text_result
       JsError.message].
  replace (ok _) with false by reflexivity. cbn [negb].
  rewrite Ht. cbn [JsError.message]. rewrite Hi. reflexivity.
Qed.

(** ** Further properties of the intake *)

Lemma addFiles_fold_staged files0 newFiles : forall acc,
  filesToAdd (fold_left (addFiles_each files0) newFiles acc) =
    filesToAdd acc
      ++ firstn (MAX_FILES - (List.length files0 + List.length (filesToAdd acc)))
           (filter (passes files0) newFiles).
Proof.
  induction newFiles as [|file rest IH]; intros acc.
  - simpl. rewrite firstn_nil, app_nil_r. reflexivity.
  - cbn [fold_left filter]. rewrite IH. clear IH. unfold addFiles_each, passes.
    destruct (Nat.leb_spec MAX_FILES (List.length files0 + List.length (filesToAdd acc)))
      as [Hfull|Hfree]; cbn [filesToAdd].
    + replace (MAX_FILES - (List.length files0 + List.length (filesToAdd acc))) with 0 by lia.
      rewrite !firstn_O. reflexivity.
    + destruct (isDocx file && negb (isDuplicate files0 file)); cbn [filesToAdd].
      * rewrite length_app. cbn [List.length].
        destruct (MAX_FILES - (List.length files0 + List.length (filesToAdd acc)))
          as [|r] eqn:Hr; [lia|].
        replace (MAX_FILES - (List.length files0 + (List.length (filesToAdd acc) + 1)))
          with r by lia.
        cbn [firstn]. rewrite <- app_assoc. reflexivity.
      * reflexivity.
Qed.

Lemma offer_files st newFiles :
  files (offer st newFiles) =
    files st ++ firstn (room (files st)) (filter (passes (files st)) newFiles).
Proof.
  unfold offer, room. rewrite addFiles_files.
  destruct (Nat.leb_spec MAX_FILES (List.length (files st))) as [Hfull|Hfree].
  - replace (MAX_FILES - List.length (files st)) with 0 by lia.
    rewrite firstn_O, app_nil_r. reflexivity.
  - unfold addFiles_loop. rewrite addFiles_fold_staged. cbn [filesToAdd List.length app].
    rewrite Nat.add_0_r. reflexivity.
Qed.

(** X1 (what an offer appends).  Whatever the batch and the offer, the batch
    after [addFiles] is the batch before followed by the offered files that
    pass the type gate and the duplicate gate, in offer order, cut at the
    room the batch had. *)
Theorem offer_appends_first_passing st newFiles :
  files (offer st newFiles) =
    files st
      ++ firstn (MAX_FILES - List.length (files st))
           (filter (fun f => isDocx f && negb (isDuplicate (files st) f)) newFiles).
Proof. exact (offer_files st newFiles). Qed.

Lemma addFiles_fold_flag_iff files0 newFiles : forall acc,
  limitReached (fold_left (addFiles_each files0) newFiles acc) = true <->
  limitReached acc = true
  \/ exists pre x post,
       newFiles = pre ++ x :: post
       /\ MAX_FILES <= List.length files0 + List.length (filesToAdd acc)
                       + List.length (filter (passes files0) pre).
Proof.
  induction newFiles as [|file rest IH]; intros acc.
  - simpl. split; [tauto|]. intros [H|[pre [x [post [H _]]]]]; [exact H|].
    destruct pre; discriminate.
  - cbn [fold_left]. rewrite IH. clear IH. unfold addFiles_each.
    destruct (Nat.leb_spec MAX_FILES (List.length files0 + List.length (filesToAdd acc)))
      as [Hfull|Hfree]; cbn [filesToAdd limitReached].
    + split; intros _.
      * right. exists [], file, rest. split; [reflexivity|]. simpl. lia.
      * left. reflexivity.
    + destruct (passes files0 file) eqn:Hp; unfold passes in Hp; rewrite Hp;
        cbn [filesToAdd limitReached].
      * split; (intros [H|[pre [x [post [Heq Hle]]]]]; [left; exact H|right]).
        -- exists (file :: pre), x, post. split; [rewrite Heq; reflexivity|].
           cbn [filter]. unfold passes at 1. rewrite Hp. rewrite length_app in Hle.
           cbn [List.length] in *. lia.
        -- destruct pre as [|y pre]; [simpl in Hle; lia|].
           injection Heq as <- Heq. exists pre, x, post. split; [exact Heq|].
           cbn [filter] in Hle. unfold passes at 1 in Hle. rewrite Hp in Hle.
           rewrite length_app. cbn [List.length] in *. lia.
      * split; (intros [H|[pre [x [post [Heq Hle]]]]]; [left; exact H|right]).
        -- exists (file :: pre), x, post. split; [rewrite Heq; reflexivity|].
           cbn [filter]. unfold passes at 1. rewrite Hp. exact Hle.
        -- destruct pre as [|y pre]; [simpl in Hle; lia|].
           injection Heq as <- Heq. exists pre, x, post. split; [exact Heq|].
           cbn [filter] in Hle. unfold passes at 1 in Hle. rewrite Hp in Hle. exact Hle.
Qed.

(** X2 (when the limit is reported).  Below capacity, [addFiles] leaves the
    limit message exactly when some offered file, of any kind, comes after
    offered files that fill the room: the capacity test runs before the type
    and the duplicate gate, so a file those gates would drop raises the limit
    message too.  Otherwise the status is [idle]. *)
Theorem offer_reports_limit_iff st newFiles :
  List.length (files st) < MAX_FILES ->
  (status (offer st newFiles)
     = status_error (msg_partially_added (MAX_FILES - List.length (files st)))
   <-> exists pre x post,
         newFiles = pre ++ x :: post
         /\ MAX_FILES - List.length (files st)
            <= List.length (filter (passes (files st)) pre))
  /\ (status (offer st newFiles) = status_idle
      \/ status (offer st newFiles)
         = status_error (msg_partially_added (MAX_FILES - List.length (files st)))).
Proof.
  intros Hfree.
  pose proof (addFiles_fold_flag_iff (files st) newFiles
                {| filesToAdd := []; limitReached := false |}) as Hiff.
  fold (addFiles_loop (files st) newFiles) in Hiff. cbn [filesToAdd limitReached] in Hiff.
  pose proof (addFiles_loop_flag (files st) newFiles) as Hfull.
  pose proof (@addFiles_fold_length (files st) newFiles
                {| filesToAdd := []; limitReached := false |}) as Hlen.
  fold (addFiles_loop (files st) newFiles) in Hlen. cbn [filesToAdd List.length] in Hlen.
  specialize (Hlen ltac:(lia)).
  unfold flag_means_full in Hfull.
  unfold offer. rewrite addFiles_status.
  replace (MAX_FILES <=? List.length (files st))%nat with false
    by (symmetry; apply Nat.leb_gt; exact Hfree).
  cbv zeta.
  destruct (limitReached (addFiles_loop (files st) newFiles)) eqn:Hflag; cbn [andb].
  - specialize (Hfull eq_refl).
    assert (Hn : List.length (filesToAdd (addFiles_loop (files st) newFiles))
                 = MAX_FILES - List.length (files st)) by lia.
    replace (0 <? _)%nat with true by (symmetry; apply Nat.ltb_lt; lia).
    rewrite Hn. split; [|right; reflexivity].
    split; intros _; [|reflexivity].
    destruct (proj1 Hiff eq_refl) as [H|[pre [x [post [Heq Hle]]]]]; [discriminate|].
    exists pre, x, post. split; [exact Heq|]. cbn [List.length] in Hle. lia.
  - split; [|left; reflexivity].
    split.
    + intros H. discriminate.
    + intros [pre [x [post [Heq Hle]]]]. exfalso.
      assert (Ht : false = true); [|discriminate].
      apply Hiff. right. exists pre, x, post. split; [exact Heq|].
      cbn [List.length]. lia.
Qed.

Lemma offer_reports_limit_iff_witness :
  status (offer (holding twenty_nine) [numbered 30; notes_txt])
  = status_error (msg_partially_added 1).
Proof.
  assert (Hfree : List.length (files (holding twenty_nine)) < MAX_FILES)
    by (vm_compute; lia).
  apply (proj2 (proj1 (offer_reports_limit_iff (holding twenty_nine)
                         [numbered 30; notes_txt] Hfree))).
  exists [numbered 30], notes_txt, []. split; [reflexivity|].
  vm_compute. lia.
Defined.

Lemma filter_none {A} (p : A -> bool) (l : list A) :
  (forall x, In x l -> p x = false) -> filter p l = [].
Proof.
  induction l as [|x l IH]; intros H; [reflexivity|].
  cbn [filter]. rewrite (H x (or_introl eq_refl)). apply IH.
  intros y Hy. apply H. right. exact Hy.
Qed.

(** Once the files an offer let through are in the batch, none of them
    passes the duplicate gate again. *)
Lemma passes_after_offer files0 staged file :
  (passes files0 file = true -> In file staged) ->
  passes (files0 ++ staged) file = false.
Proof.
  intros Hin. unfold passes in *.
  destruct (isDocx file); [|reflexivity]. cbn [andb] in *.
  apply negb_false_iff. apply isDuplicate_In. rewrite map_app. apply in_or_app.
  destruct (isDuplicate files0 file) eqn:Hdup.
  - left. apply isDuplicate_In. exact Hdup.
  - right. apply in_map. apply Hin. reflexivity.
Qed.

(** X3 (offering the same files again).  A second [addFiles] with the files
    of the first one appends nothing: either the first filled the batch, or
    everything it let through is now in the batch and is a duplicate. *)
Theorem offer_twice_adds_nothing st newFiles :
  files (offer (offer st newFiles) newFiles) = files (offer st newFiles).
Proof.
  rewrite (offer_files (offer st newFiles)). rewrite (offer_files st).
  set (B := files st).
  set (T0 := firstn (room B) (filter (passes B) newFiles)).
  assert (Hnone : firstn (room (B ++ T0)) (filter (passes (B ++ T0)) newFiles) = []);
    [|rewrite Hnone; apply app_nil_r].
  destruct (Nat.le_gt_cases (room B) (List.length (filter (passes B) newFiles)))
    as [Hcut|Hall].
  - assert (HS : List.length T0 = room B).
    { unfold T0. rewrite length_firstn. lia. }
    replace (room (B ++ T0)) with 0; [apply firstn_O|].
    unfold room in *. rewrite length_app. lia.
  - assert (HS : T0 = filter (passes B) newFiles).
    { unfold T0. apply firstn_all2. lia. }
    replace (filter (passes (B ++ T0)) newFiles) with (@nil File);
      [apply firstn_nil|].
    symmetry. apply filter_none. intros f Hf.
    apply passes_after_offer.
    intros Hp. rewrite HS. apply filter_In. split; assumption.
Qed.

(** X4 (add, then remove).  Offering one file and removing the position
    after the old end of the batch gives the old batch back, whether the
    file was taken or not. *)
Theorem offer_then_remove_last st file :
  files (removeFile (Z.of_nat (List.length (files st))) (offer st [file])) = files st.
Proof.
  unfold removeFile. cbn [files setFiles]. rewrite offer_files.
  rewrite filter_indexed_skip. rewrite Z.add_0_l, Z.sub_0_r, Nat2Z.id.
  set (T0 := firstn (room (files st)) (filter (passes (files st)) [file])).
  assert (HS : T0 = [] \/ T0 = [file]).
  { unfold T0. cbn [filter]. destruct (passes (files st) file).
    - destruct (room (files st)); [left; reflexivity|right].
      cbn [firstn]. rewrite firstn_nil. reflexivity.
    - left. apply firstn_nil. }
  destruct HS as [-> | ->].
  - rewrite app_nil_r.
    replace ((0 <=? _)%Z && _) with false; [reflexivity|].
    symmetry. apply andb_false_iff. right. apply Z.ltb_ge. lia.
  - replace ((0 <=? _)%Z && _) with true.
    + rewrite firstn_app, firstn_all, Nat.sub_diag. cbn [firstn].
      rewrite app_nil_r.
      rewrite skipn_app, skipn_all2 by lia.
      replace (S (List.length (files st)) - List.length (files st)) with 1 by lia.
      cbn [skipn app]. rewrite app_nil_r. reflexivity.
    + symmetry. apply andb_true_iff. split; [apply Z.leb_le; lia|].
      apply Z.ltb_lt. rewrite length_app. cbn [List.length]. lia.
Qed.

(** ** Further properties of the workflow machine *)

Lemma handleSubmit_sync_run batch P w :
  batch <> [] ->
  handleSubmit_sync batch P w =
    (inr tt, {| app := setStatus status_idle (setIsLoading true (app w));
                trace := trace w ++ [request P batch] |}).
Proof.
  intros Hne. unfold handleSubmit_sync. rewrite (length_eqb_0 Hne). reflexivity.
Qed.

(** The second half of [handleSubmit], by whether the exchange fails. *)
Lemma handleSubmit_async_run P w :
  (transfer_fails P = true
   /\ exists tr e,
        forallb is_console tr = true
        /\ handleSubmit_async P w =
             (inr tt,
              {| app := setIsLoading false
                          (setStatus (status_error (catch_message e)) (app w));
                 trace := trace w ++ tr |}))
  \/ (transfer_fails P = false
      /\ exists tr,
           forallb (fun e => negb (is_request e)) tr = true
           /\ handleSubmit_async P w =
                (inr tt,
                 {| app := setIsLoading false
                             (clearAll (setStatus (status_success msg_success) (app w)));
                    trace := trace w ++ tr |})).
Proof.
  unfold handleSubmit_async, transfer_fails, handleSubmit_try, download.
  unfold try_catch_finally, bind, set, emit, await, throw, ret.
  cbn [app trace fst snd].
  destruct (fetch_result P) as [e|r].
  - left. split; [reflexivity|]. rewrite handleSubmit_catch_run.
    eexists _, e. split; cycle 1; reflexivity.
  - destruct (ok r); cbn [negb orb].
    + destruct (blob_result r) as [e|b].
      * left. split; [reflexivity|]. rewrite handleSubmit_catch_run.
        eexists _, e. split; cycle 1; reflexivity.
      * destruct (createObjectURL_result P) as [e|url].
        -- left. split; [reflexivity|]. rewrite handleSubmit_catch_run.
           eexists _, e. split; cycle 1; reflexivity.
        -- right. split; [reflexivity|]. cbn [app trace].
           rewrite <- !app_assoc. eexists. split; cycle 1; reflexivity.
    + left. split; [reflexivity|].
      destruct (text_result r) as [e|t]; rewrite handleSubmit_catch_run; cbn [app trace].
      * eexists _, e. split; cycle 1; reflexivity.
      * rewrite <- !app_assoc. eexists _, _. split; cycle 1; reflexivity.
Qed.

Lemma filter_indexed_In {A} (p : A -> Z -> bool) (l : list A) : forall start x,
  In x (filter_indexed p start l) -> In x l.
Proof.
  induction l as [|y l IH]; intros start x H; [exact H|].
  cbn [filter_indexed] in H. destruct (p y start).
  - destruct H as [H|H]; [left; exact H | right; exact (IH _ _ H)].
  - right. exact (IH _ _ H).
Qed.

Lemma filter_indexed_length {A} (p : A -> Z -> bool) (l : list A) : forall start,
  List.length (filter_indexed p start l) <= List.length l.
Proof.
  induction l as [|y l IH]; intros start; [apply Nat.le_refl|].
  cbn [filter_indexed]. specialize (IH (start + 1)%Z).
  destruct (p y start); cbn [List.length]; lia.
Qed.

Lemma filter_indexed_NoDup {A B} (g : A -> B) (p : A -> Z -> bool) (l : list A) :
  forall start, NoDup (map g l) -> NoDup (map g (filter_indexed p start l)).
Proof.
  induction l as [|y l IH]; intros start H; [exact H|].
  cbn [map] in H. apply NoDup_cons_iff in H as [Hy Hl].
  cbn [filter_indexed]. destruct (p y start); [|apply IH; exact Hl].
  cbn [map]. constructor; [|apply IH; exact Hl].
  intros Hin. apply Hy. apply in_map_iff in Hin as [x [Hx Hin]].
  apply in_map_iff. exists x. split; [exact Hx|].
  exact (filter_indexed_In _ _ _ _ Hin).
Qed.

(** What one event does to the batch. *)
Lemma step_files m ev :
  let st := app (world m) in
  files (app (world (step m ev))) = files st
  \/ (exists fl, files (app (world (step m ev))) = files (offer st fl)
                 /\ (ev = Drop fl \/ ev = Change (Some fl)))
  \/ (exists index, files (app (world (step m ev)))
                    = files (removeFile index st))
  \/ files (app (world (step m ev))) = [].
Proof.
  cbv zeta. unfold step. destruct (reaches m ev) eqn:Hr; cbn [negb]; [|left; reflexivity].
  destruct ev as [fl| | |tf|i| |P| ]; cbn [update world app].
  - right; left. exists fl. split; [|left; reflexivity].
    unfold handleDrop, offer. rewrite !addFiles_files. reflexivity.
  - left. reflexivity.
  - left. reflexivity.
  - destruct tf as [fl|]; [|left; reflexivity].
    right; left. exists fl. split; [reflexivity|right; reflexivity].
  - right; right; left. eexists. reflexivity.
  - right; right; right. reflexivity.
  - left. unfold reaches in Hr. apply andb_true_iff in Hr as [Hne _].
    apply negb_true_iff in Hne.
    rewrite handleSubmit_sync_run; [reflexivity|].
    intros H. rewrite H in Hne. discriminate.
  - unfold reaches in Hr. destruct (pending m) as [|P rest]; [discriminate|].
    cbn [world].
    destruct (handleSubmit_async_run P (world m))
      as [[_ [tr [e [_ ->]]]]|[_ [tr [_ ->]]]].
    + left. reflexivity.
    + right; right; right. reflexivity.
Qed.

Lemma step_capacity m ev :
  List.length (files (app (world m))) <= MAX_FILES ->
  List.length (files (app (world (step m ev)))) <= MAX_FILES.
Proof.
  intros Hm.
  destruct (step_files m ev) as [->|[[fl [-> _]]|[[index ->]| ->]]].
  - exact Hm.
  - apply offer_capacity, Hm.
  - unfold removeFile. cbn [files setFiles].
    etransitivity; [apply filter_indexed_length | exact Hm].
  - simpl. lia.
Qed.

Lemma steps_capacity evs : forall m,
  List.length (files (app (world m))) <= MAX_FILES ->
  List.length (files (app (world (steps m evs)))) <= MAX_FILES.
Proof.
  unfold steps. induction evs as [|ev rest IH]; intros m Hm; [exact Hm|].
  cbn [fold_left]. apply IH, step_capacity, Hm.
Qed.

(** X5 (capacity, for the whole component).  From the first render on,
    whatever the user drops, picks, removes, clears or submits and however
    the requests settle, the batch never holds more than [MAX_FILES] files. *)
Theorem batch_never_exceeds_capacity evs :
  List.length (files (app (world (steps boot evs)))) <= 30.
Proof.
  change 30 with MAX_FILES. apply steps_capacity. simpl. unfold MAX_FILES. lia.
Qed.

(** X6 (no duplicates, for the whole component).  If no single drop or
    selection brings two files with the same name and size, the batch never
    holds two files with the same name and size, whatever else happens. *)
Theorem batch_never_holds_duplicates evs :
  Forall offer_unique evs ->
  NoDup (map File.key (files (app (world (steps boot evs))))).
Proof.
  assert (H : forall m, NoDup (map File.key (files (app (world m)))) ->
                        Forall offer_unique evs ->
                        NoDup (map File.key (files (app (world (steps m evs)))))).
  { unfold steps. induction evs as [|ev rest IH]; intros m Hm Hevs; [exact Hm|].
    cbn [fold_left]. inversion Hevs as [|ev' rest' Hev Hrest]; subst.
    apply IH; [|exact Hrest].
    destruct (step_files m ev) as [->|[[fl [-> Hfl]]|[[index ->]| ->]]].
    - exact Hm.
    - apply offer_NoDup; [exact Hm|].
      destruct Hfl as [-> | ->]; exact Hev.
    - unfold removeFile. cbn [files setFiles].
      apply filter_indexed_NoDup, Hm.
    - constructor. }
  intros Hevs. apply H; [constructor | exact Hevs].
Qed.

Lemma batch_never_holds_duplicates_witness :
  NoDup (map File.key
           (files (app (world (steps boot
              [Drop [report_v1; notes_txt]; Change (Some [report_v2; numbered 3]);
               RemoveClick 0; Drop [report_v1]]))))).
Proof.
  apply batch_never_holds_duplicates.
  repeat constructor; simpl; intuition discriminate.
Defined.

Lemma addFiles_status_type files0 newFiles st :
  type (status (addFiles files0 newFiles st)) <> success.
Proof.
  rewrite addFiles_status.
  destruct (MAX_FILES <=? List.length files0)%nat; [discriminate|]. cbv zeta.
  destruct (limitReached _ && _); [discriminate|].
  destruct (limitReached _); discriminate.
Qed.

Lemma step_status m ev :
  type (status (app (world m))) <> success ->
  type (status (app (world (step m ev)))) <> success.
Proof.
  intros Hm. unfold step. destruct (reaches m ev) eqn:Hr; cbn [negb]; [|exact Hm].
  destruct ev as [fl| | |tf|i| |P| ]; cbn [update world app].
  - apply addFiles_status_type.
  - exact Hm.
  - exact Hm.
  - destruct tf as [fl|]; [apply addFiles_status_type | exact Hm].
  - exact Hm.
  - discriminate.
  - unfold reaches in Hr. apply andb_true_iff in Hr as [Hne _].
    apply negb_true_iff in Hne.
    rewrite handleSubmit_sync_run; [discriminate|].
    intros H. rewrite H in Hne. discriminate.
  - unfold reaches in Hr. destruct (pending m) as [|P rest]; [discriminate|].
    cbn [world].
    destruct (handleSubmit_async_run P (world m))
      as [[_ [tr [e [_ ->]]]]|[_ [tr [_ ->]]]]; discriminate.
Qed.

(** X7 (the success status is never left standing).  In no state between
    two events is the status of type [success]: every handler that sets it
    overwrites it before it returns, so the component only ever rests on
    [idle] or on an error. *)
Theorem status_never_rests_on_success evs :
  type (status (app (world (steps boot evs)))) <> success.
Proof.
  assert (H : forall m, type (status (app (world m))) <> success ->
                        type (status (app (world (steps m evs)))) <> success).
  { unfold steps. induction evs as [|ev rest IH]; intros m Hm; [exact Hm|].
    cbn [fold_left]. apply IH, step_status, Hm. }
  apply H. discriminate.
Qed.

Lemma console_not_request tr :
  forallb is_console tr = true -> forallb (fun e => negb (is_request e)) tr = true.
Proof.
  intros H. apply forallb_forall. intros e He.
  rewrite forallb_forall in H. specialize (H e He). destruct e; try discriminate.
  reflexivity.
Qed.

Lemma not_request_well_formed tr :
  forallb (fun e => negb (is_request e)) tr = true -> Forall well_formed tr.
Proof.
  intros H. apply Forall_forall. intros e He.
  rewrite forallb_forall in H. specialize (H e He). destruct e; try exact I.
  discriminate.
Qed.

Lemma request_well_formed P batch :
  batch <> [] -> List.length batch <= MAX_FILES -> well_formed (request P batch).
Proof.
  intros Hne Hlen. unfold request, well_formed. repeat split.
  - destruct batch; [congruence | discriminate].
  - rewrite length_map. exact Hlen.
  - apply Forall_forall. intros part Hin. apply in_map_iff in Hin as [f [<- _]].
    reflexivity.
Qed.

Lemma step_requests m ev :
  List.length (files (app (world m))) <= MAX_FILES ->
  Forall well_formed (trace (world m)) ->
  Forall well_formed (trace (world (step m ev))).
Proof.
  intros Hcap Hm. unfold step. destruct (reaches m ev) eqn:Hr; cbn [negb]; [|exact Hm].
  destruct ev as [fl| | |tf|i| |P| ]; cbn [update world trace]; try exact Hm.
  - unfold reaches in Hr. apply andb_true_iff in Hr as [Hne _].
    apply negb_true_iff in Hne.
    assert (Hfiles : files (app (world m)) <> []).
    { intros H. rewrite H in Hne. discriminate. }
    rewrite (handleSubmit_sync_run P (world m) Hfiles). cbn [snd trace].
    apply Forall_app. split; [exact Hm|].
    constructor; [|constructor]. apply request_well_formed; assumption.
  - unfold reaches in Hr. destruct (pending m) as [|P rest]; [discriminate|].
    cbn [world].
    destruct (handleSubmit_async_run P (world m))
      as [[_ [tr [e [Htr ->]]]]|[_ [tr [Htr ->]]]]; cbn [snd trace];
      apply Forall_app; (split; [exact Hm|]); apply not_request_well_formed.
    + apply console_not_request, Htr.
    + exact Htr.
Qed.

(** X8 (every request is well formed).  Every request the component ever
    issues is a POST whose multipart body has at least one and at most
    [MAX_FILES] parts, each under the field name files: an empty batch is
    never sent and the backend's limit of thirty files is never exceeded. *)
Theorem requests_always_well_formed evs e :
  In e (trace (world (steps boot evs))) -> well_formed e.
Proof.
  assert (H : forall m, List.length (files (app (world m))) <= MAX_FILES ->
                        Forall well_formed (trace (world m)) ->
                        Forall well_formed (trace (world (steps m evs)))).
  { unfold steps. induction evs as [|ev rest IH]; intros m Hcap Hm; [exact Hm|].
    cbn [fold_left]. apply IH; [apply step_capacity, Hcap | apply step_requests; assumption]. }
  intros Hin.
  assert (Hall : Forall well_formed (trace (world (steps boot evs)))).
  { apply H; [simpl; unfold MAX_FILES; lia | constructor]. }
  rewrite Forall_forall in Hall. exact (Hall e Hin).
Qed.

Lemma requests_always_well_formed_witness :
  well_formed (request (answering archive_response) [report_v1]).
Proof.
  apply (requests_always_well_formed
           [Change (Some [report_v1]); ConvertClick (answering archive_response)]).
  left. reflexivity.
Defined.

(** X9 (one transfer at a time).  From the first render on, at most one
    request is pending, and the component shows loading exactly while one
    is. *)
Theorem loading_iff_request_pending evs :
  List.length (pending (steps boot evs)) <= 1
  /\ (isLoading (app (world (steps boot evs))) = true <-> pending (steps boot evs) <> []).
Proof.
  pose proof (@steps_one_transfer evs boot eq_refl) as H.
  unfold one_transfer in H.
  destruct (isLoading (app (world (steps boot evs)))).
  - split; [rewrite H; lia|]. split; [|reflexivity].
    intros _ Hnil. rewrite Hnil in H. discriminate.
  - rewrite H. split; [simpl; lia|]. split; [discriminate|congruence].
Qed.

(** X10 (what a settled request does to the batch).  When the oldest
    pending request settles, the component leaves loading; if the exchange
    failed the batch is what it is at that moment, if it succeeded the batch
    is emptied as a whole, the files dropped since the click included. *)
Theorem settle_clears_or_keeps m P rest :
  pending m = P :: rest ->
  files (app (world (step m Settle)))
    = (if transfer_fails P then files (app (world m)) else [])
  /\ isLoading (app (world (step m Settle))) = false
  /\ pending (step m Settle) = rest.
Proof.
  intros Hp. unfold step, reaches. rewrite Hp. cbn [negb world pending].
  destruct (handleSubmit_async_run P (world m))
    as [[-> [tr [e [_ ->]]]]|[-> [tr [_ ->]]]]; repeat split.
Qed.

Lemma settle_clears_or_keeps_witness :
  files (app (world (step (step converting (Drop [numbered 2])) Settle))) = [].
Proof.
  exact (proj1 (@settle_clears_or_keeps (step converting (Drop [numbered 2]))
                  (answering archive_response) [] eq_refl)).
Defined.

Lemma addFiles_setIsDragging files0 newFiles b st :
  addFiles files0 newFiles (setIsDragging b st)
  = setIsDragging b (addFiles files0 newFiles st).
Proof. addFiles_branches files0. Qed.

(** X12 (the two input paths are one).  While the page is not loading, a
    drop and a selection of the same files go through the same admission:
    the resulting states differ at most in the drag highlight, which the
    drop switches off. *)
Theorem drop_is_selection m fl :
  isLoading (app (world m)) = false ->
  app (world (step m (Drop fl)))
  = setIsDragging false (app (world (step m (Change (Some fl))))).
Proof.
  intros Hl. unfold step, reaches. rewrite Hl. cbn [negb update world app handleFileChange].
  unfold handleDrop. apply addFiles_setIsDragging.
Qed.

Lemma drop_is_selection_witness :
  files (app (world (step boot (Drop [report_v1; notes_txt]))))
  = files (app (world (step boot (Change (Some [report_v1; notes_txt]))))).
Proof.
  rewrite (@drop_is_selection boot [report_v1; notes_txt] eq_refl). reflexivity.
Defined.

Lemma submit_empty_batch_trace st P :
  files st = [] -> trace (snd (submit st P)) = [].
Proof. intros H. unfold submit, run, handleSubmit. rewrite H. reflexivity. Qed.

(** ** Further properties of the submission *)

(** The trace and the batch of a whole submission, by whether it fails. *)
Lemma submit_outcome st P :
  files st <> [] ->
  exists rest,
    trace (snd (submit st P)) = request P (files st) :: rest
    /\ fst (submit st P) = inr tt
    /\ isLoading (app (snd (submit st P))) = false
    /\ if transfer_fails P
       then forallb is_console rest = true
            /\ files (app (snd (submit st P))) = files st
       else (exists b url name,
               rest = [ObjectURLCreated b url; AnchorAppended url name;
                       AnchorClicked url name; ObjectURLRevoked url; AnchorRemoved])
            /\ files (app (snd (submit st P))) = [].
Proof.
  intros Hne. unfold submit. rewrite (handleSubmit_run P st Hne). cbv zeta.
  unfold transfer_fails, failed.
  destruct (fetch_result P) as [e|r].
  - eexists. repeat split.
  - destruct (ok r); cbn [negb orb].
    + destruct (blob_result r) as [e|b]; [eexists; repeat split|].
      destruct (createObjectURL_result P) as [e|url]; [eexists; repeat split|].
      eexists. repeat split. eexists _, _, _. reflexivity.
    + destruct (text_result r) as [e|t]; eexists; repeat split.
Qed.

(** X13 (one request per submission).  A submission of a non-empty batch
    issues exactly one request, before anything else: a POST to the
    configured endpoint whose body lists the files of the batch, in batch
    order, each under the field name files; no other request follows,
    whatever the platform answers. *)
Theorem submit_issues_one_request st P :
  files st <> [] ->
  exists rest,
    trace (snd (submit st P))
      = FetchIssued (API_URL P) "POST" (map (fun file => ("files", file)) (files st))
          :: rest
    /\ forallb (fun e => negb (is_request e)) rest = true.
Proof.
  intros Hne. destruct (@submit_outcome st P Hne) as [rest [Htrace [_ [_ Hcase]]]].
  exists rest. split; [exact Htrace|].
  destruct (transfer_fails P).
  - apply console_not_request, Hcase.
  - destruct Hcase as [[b [url [name ->]]] _]. reflexivity.
Qed.

Lemma submit_issues_one_request_witness :
  exists rest,
    trace (snd (submit (holding [report_v1]) offline))
      = FetchIssued "https://api.example.org/convert" "POST" [("files", report_v1)] :: rest
    /\ forallb (fun e => negb (is_request e)) rest = true.
Proof.
  assert (Hne : files (holding [report_v1]) <> []) by discriminate.
  exact (@submit_issues_one_request (holding [report_v1]) offline Hne).
Defined.

(** X14 (saving and clearing go together).  In a submission of a non-empty
    batch the download is triggered exactly when the exchange does not fail,
    and the batch is emptied exactly then; a failed exchange leaves nothing
    but console output after the request. *)
Theorem submit_saves_iff_success st P :
  files st <> [] ->
  ((exists href name, In (AnchorClicked href name) (trace (snd (submit st P))))
   <-> transfer_fails P = false)
  /\ (files (app (snd (submit st P))) = [] <-> transfer_fails P = false).
Proof.
  intros Hne. destruct (@submit_outcome st P Hne) as [rest [Htrace [_ [_ Hcase]]]].
  rewrite Htrace. destruct (transfer_fails P).
  - destruct Hcase as [Hconsole Hfiles]. split; split; try discriminate.
    + intros [href [name [Hin|Hin]]]; [discriminate|].
      rewrite forallb_forall in Hconsole. specialize (Hconsole _ Hin). discriminate.
    + rewrite Hfiles. intros H. congruence.
  - destruct Hcase as [[b [url [name ->]]] Hfiles]. split; split; try reflexivity.
    + intros _. exists url, name. right; right; right; left. reflexivity.
    + intros _. exact Hfiles.
Qed.

Lemma submit_saves_iff_success_witness :
  files (app (snd (submit (holding ten_documents) (answering archive_response)))) = [].
Proof.
  assert (Hne : files (holding ten_documents) <> []) by (vm_compute; discriminate).
  exact (proj2 (proj2 (@submit_saves_iff_success (holding ten_documents)
                         (answering archive_response) Hne)) eq_refl).
Defined.

(** X15 (the object URL is released).  Whatever the batch and whatever the
    platform answers, every object URL a submission creates is revoked in
    the same submission, after the click on the anchor, and the anchor is
    removed. *)
Theorem object_url_always_revoked st P b url :
  In (ObjectURLCreated b url) (trace (snd (submit st P))) ->
  exists before name,
    trace (snd (submit st P))
      = before ++ [ObjectURLCreated b url; AnchorAppended url name;
                   AnchorClicked url name; ObjectURLRevoked url; AnchorRemoved].
Proof.
  destruct (files st) as [|f l] eqn:Hfiles.
  - rewrite (submit_empty_batch_trace st P Hfiles). intros [].
  - assert (Hne : files st <> []) by (rewrite Hfiles; discriminate).
    destruct (@submit_outcome st P Hne) as [rest [Htrace [_ [_ Hcase]]]].
    rewrite Htrace. destruct (transfer_fails P).
    + destruct Hcase as [Hconsole _]. intros [Hin|Hin]; [discriminate|].
      rewrite forallb_forall in Hconsole. specialize (Hconsole _ Hin). discriminate.
    + destruct Hcase as [[b' [url' [name ->]]] _].
      intros [Hin|[Hin|[Hin|[Hin|[Hin|[Hin|[]]]]]]]; try discriminate.
      injection Hin as -> ->. exists [request P (files st)], name. reflexivity.
Qed.

Lemma object_url_always_revoked_witness :
  exists before name,
    trace (snd (submit (holding ten_documents) (answering archive_response)))
      = before ++ [ObjectURLCreated {| blob_id := 1 |} "blob:5f1c";
                   AnchorAppended "blob:5f1c" name; AnchorClicked "blob:5f1c" name;
                   ObjectURLRevoked "blob:5f1c"; AnchorRemoved].
Proof.
  apply object_url_always_revoked. right. left. reflexivity.
Defined.

(** X16 (only fixed messages reach the user).  After a submission, of any
    batch and with any answer of the platform, the status is [idle] or an
    error with one of four fixed messages: no text that comes from the
    platform, a browser error message or a response body, is ever shown. *)
Theorem submit_status_is_fixed st P :
  In (status (app (snd (submit st P))))
     [status_idle;
      status_error msg_empty_submission;
      status_error msg_network;
      status_error msg_server;
      status_error msg_unexpected].
Proof.
  destruct (files st) as [|f l] eqn:Hfiles.
  - unfold submit, run, handleSubmit. rewrite Hfiles. right; left. reflexivity.
  - assert (Hne : files st <> []) by (rewrite Hfiles; discriminate).
    unfold submit. rewrite (handleSubmit_run P st Hne). cbv zeta.
    assert (Hfailed : forall st1 tr e,
              In (status (app (snd (failed st1 tr e))))
                 [status_idle; status_error msg_empty_submission;
                  status_error msg_network; status_error msg_server;
                  status_error msg_unexpected]).
    { intros st1 tr e. cbn [failed snd app setIsLoading setStatus status].
      unfold catch_message.
      destruct (JsString.includes _ _); [right; right; left; reflexivity|].
      destruct (String.eqb _ _);
        [right; right; right; left | right; right; right; right; left]; reflexivity. }
    destruct (fetch_result P) as [e|r]; [apply Hfailed|].
    destruct (ok r).
    + destruct (blob_result r) as [e|b]; [apply Hfailed|].
      destruct (createObjectURL_result P) as [e|url]; [apply Hfailed|].
      left. reflexivity.
    + destruct (text_result r) as [e|t]; apply Hfailed.
Qed.

(** ** Further properties of the filename resolution *)

Module Header.
Import ContentDisposition.

(** The literal head does not start inside a text without a double quote
    that is followed by the head: its first letter occurs in it only once,
    and it ends in a double quote. *)
Lemma strip_head_inside p rest :
  p <> EmptyString -> no_quote p -> strip head (p ++ head ++ rest)%string = None.
Proof.
  intros Hne Hq. unfold head.
  destruct p as [|c p]; [congruence|].
  destruct Hq as [Hc Hq]. cbn [strip append].
  destruct (Ascii.eqb_spec "f" c) as [<-|]; [|reflexivity].
  repeat (destruct p as [|c p]; [reflexivity|];
          destruct Hq as [? Hq]; cbn [strip append];
          match goal with
          | |- (if Ascii.eqb ?a c then _ else None) = None =>
              destruct (Ascii.eqb_spec a c) as [<-|]; [|reflexivity]
          end;
          try congruence).
Qed.

Lemma match_skips_unquoted pre s :
  no_quote pre -> match_ (pre ++ head ++ s)%string = match_ (head ++ s)%string.
Proof.
  induction pre as [|c pre IH]; intros Hq; [reflexivity|].
  cbn [append match_]. unfold match_here.
  change (String c (pre ++ head ++ s))%string with (String c pre ++ head ++ s)%string.
  rewrite strip_head_inside; [|discriminate|exact Hq].
  apply IH. exact (proj2 Hq).
Qed.

Lemma lazy_more_unquoted name post :
  no_quote name -> all_dot name ->
  lazy_more (name ++ String dquote post)%string = Some name.
Proof.
  induction name as [|c name IH]; intros Hq Hd; cbn [append lazy_more].
  - rewrite Ascii.eqb_refl. reflexivity.
  - destruct Hq as [Hc Hq]. destruct Hd as [Hdot Hd].
    destruct (Ascii.eqb_spec c dquote) as [->|_]; [congruence|].
    rewrite Hdot, (IH Hq Hd). reflexivity.
Qed.

Lemma match_here_quoted name post :
  name <> EmptyString -> no_quote name -> all_dot name ->
  match_here (head ++ name ++ String dquote post)%string = Some name.
Proof.
  intros Hne Hq Hd. unfold match_here.
  rewrite (proj2 (Pattern.strip_spec head _ _) eq_refl).
  destruct name as [|c name]; [congruence|].
  destruct Hq as [_ Hq]. destruct Hd as [Hdot Hd].
  cbn [append group]. rewrite Hdot, (@lazy_more_unquoted name post Hq Hd). reflexivity.
Qed.

Lemma match_of_match_here s v :
  match_here s = Some v ->
  match_ s = Some [(head ++ v ++ String dquote EmptyString)%string; v].
Proof. intros H. destruct s; cbn [match_]; rewrite H; reflexivity. Qed.

End Header.

(** X17 (a quoted name comes back).  When the header reads: some text
    without a double quote, then filename= and a quoted, non-empty name
    without double quotes and line terminators, then anything, the filename
    the download gets is that name. *)
Theorem resolveFilename_quoted_name pre name post :
  no_quote pre -> name <> EmptyString -> no_quote name ->
  ContentDisposition.all_dot name ->
  resolveFilename (Some (naming pre name post)) = name.
Proof.
  intros Hpre Hne Hq Hd. unfold resolveFilename, naming.
  rewrite Header.match_skips_unquoted by exact Hpre.
  rewrite (Header.match_of_match_here _ (@Header.match_here_quoted name post Hne Hq Hd)).
  destruct pre; reflexivity.
Qed.

Lemma resolveFilename_quoted_name_witness :
  resolveFilename (Some (naming "attachment; " "relatorio final.zip" "; size=1024"))
  = "relatorio final.zip".
Proof.
  apply resolveFilename_quoted_name.
  - vm_compute. repeat split; discriminate.
  - discriminate.
  - vm_compute. repeat split; discriminate.
  - vm_compute. repeat split.
Defined.

(** X18 (the download always has a name).  Whatever the header, absent,
    empty, matching or not, the resolved filename is not the empty string. *)
Theorem resolveFilename_never_empty contentDisposition :
  resolveFilename contentDisposition <> EmptyString.
Proof.
  unfold resolveFilename.
  destruct contentDisposition as [cd|]; [|discriminate].
  destruct (JsString.truthy cd); [|discriminate].
  destruct (ContentDisposition.match_ cd) as [arr|] eqn:Hm; [|discriminate].
  destruct (Pattern.match_sound _ Hm) as [v [-> [pre [s [_ [[post [_ [Hne _]]] _]]]]]].
  exact Hne.
Qed.

(** ** Further properties of the earlier variant *)

Lemma legacy_fold files0 newFiles : forall acc,
  fold_left (Legacy.addFiles_each files0) newFiles acc
  = acc ++ filter (passes files0) newFiles.
Proof.
  induction newFiles as [|file rest IH]; intros acc; cbn [fold_left filter].
  - rewrite app_nil_r. reflexivity.
  - rewrite IH. unfold Legacy.addFiles_each, passes.
    destruct (isDocx file && negb (isDuplicate files0 file)); [|reflexivity].
    rewrite <- app_assoc. reflexivity.
Qed.

(** X19 (the earlier variant has no limit).  [addFiles] of the earlier
    variant appends every offered file that passes the type gate and the
    duplicate gate, in offer order, however many the batch then holds, and
    always leaves the status [idle]. *)
Theorem legacy_addFiles_appends_all_passing st newFiles :
  files (Legacy.addFiles (files st) newFiles st)
    = files st
        ++ filter (fun f => isDocx f && negb (isDuplicate (files st) f)) newFiles
  /\ status (Legacy.addFiles (files st) newFiles st) = status_idle.
Proof.
  unfold Legacy.addFiles. cbn [files status setFiles setStatus].
  rewrite legacy_fold. split; reflexivity.
Qed.

Lemma filter_length_app {A} (p : A -> bool) (pre post : list A) :
  List.length (filter p pre) <= List.length (filter p (pre ++ post)).
Proof. rewrite filter_app, length_app. lia. Qed.

(** X20 (the two variants agree below the limit).  When the batch and the
    offered files that pass the gates stay, together, under [MAX_FILES], the
    [addFiles] of [App.tsx] and the one of the earlier variant produce the
    same state. *)
Theorem addFiles_agrees_with_legacy files0 newFiles st :
  List.length files0 + List.length (filter (passes files0) newFiles) < MAX_FILES ->
  addFiles files0 newFiles st = Legacy.addFiles files0 newFiles st.
Proof.
  intros Hroom.
  assert (Hflag : limitReached (addFiles_loop files0 newFiles) = false).
  { destruct (limitReached (addFiles_loop files0 newFiles)) eqn:Hf; [|reflexivity].
    exfalso. unfold addFiles_loop in Hf.
    apply addFiles_fold_flag_iff in Hf as [Hf|[pre [x [post [Heq Hle]]]]];
      [discriminate|].
    cbn [filesToAdd List.length] in Hle.
    pose proof (filter_length_app (passes files0) pre (x :: post)) as Hpre.
    rewrite <- Heq in Hpre. lia. }
  assert (Hstaged : filesToAdd (addFiles_loop files0 newFiles)
                    = filter (passes files0) newFiles).
  { unfold addFiles_loop. rewrite addFiles_fold_staged. cbn [filesToAdd List.length app].
    apply firstn_all2. lia. }
  unfold addFiles, Legacy.addFiles.
  replace (MAX_FILES <=? List.length files0)%nat with false
    by (symmetry; apply Nat.leb_gt; lia).
  cbv zeta. rewrite Hflag, Hstaged, legacy_fold. reflexivity.
Qed.

Lemma addFiles_agrees_with_legacy_witness :
  addFiles [report_v1] [notes_txt; numbered 2; report_v2] (holding [report_v1])
  = Legacy.addFiles [report_v1] [notes_txt; numbered 2; report_v2] (holding [report_v1]).
Proof.
  apply addFiles_agrees_with_legacy. vm_compute. lia.
Defined.

(** X21 (the earlier variant shows the server's text).  In the earlier
    variant a response with a status outside 2xx puts the response body
    itself in the error status; an empty body is replaced by a fixed
    message, and a body that contains the words Failed to fetch is taken for
    a connection failure. *)
Theorem legacy_shows_server_text st P r t :
  files st <> [] ->
  fetch_result P = inr r -> ok r = false -> text_result r = inr t ->
  status (final (Legacy.handleSubmit (files st) P) st)
  = status_error
      (let shown := if JsString.truthy t then t else Legacy.msg_server_default in
       if JsString.includes shown "Failed to fetch" then Legacy.msg_network else shown).
Proof.
  intros Hne Hf Hok Ht. unfold final, run, Legacy.handleSubmit.
  rewrite (length_eqb_0 Hne).
  unfold Legacy.handleSubmit_try, Legacy.handleSubmit_catch.
  unfold try_catch_finally, bind, set, emit, await, throw, ret.
  cbn [app trace fst snd]. rewrite Hf, Hok. cbn [negb]. rewrite Ht.
  cbn [JsError.message app trace fst snd]. cbv zeta.
  destruct (JsString.includes _ _); reflexivity.
Qed.

Lemma legacy_shows_server_text_witness :
  status (final (Legacy.handleSubmit (files (holding ten_documents))
                   (answering (failing_response "conversion failed: corrupt zip")))
            (holding ten_documents))
  = status_error "conversion failed: corrupt zip".
Proof.
  assert (Hne : files (holding ten_documents) <> []) by (vm_compute; discriminate).
  exact (@legacy_shows_server_text (holding ten_documents)
           (answering (failing_response "conversion failed: corrupt zip"))
           (failing_response "conversion failed: corrupt zip")
           "conversion failed: corrupt zip" Hne eq_refl eq_refl eq_refl).
Defined.

(** X22 (the earlier variant: batch and loading after a submission).  In the
    earlier variant too a submission of a non-empty batch returns normally
    with loading switched off; the batch is kept when the exchange fails and
    emptied when it succeeds, and the status it rests on is never of type
    [success]. *)
Theorem legacy_submit_keeps_or_clears st P :
  files st <> [] ->
  let w := snd (run (Legacy.handleSubmit (files st) P) st) in
  fst (run (Legacy.handleSubmit (files st) P) st) = inr tt
  /\ isLoading (app w) = false
  /\ files (app w) = (if transfer_fails P then files st else [])
  /\ type (status (app w)) <> success.
Proof.
  intros Hne. cbv zeta. unfold run, Legacy.handleSubmit.
  rewrite (length_eqb_0 Hne).
  unfold Legacy.handleSubmit_try, Legacy.handleSubmit_catch, download, transfer_fails.
  unfold try_catch_finally, bind, set, emit, await, throw, ret.
  cbn [app trace fst snd].
  destruct (fetch_result P) as [e|r]; cbn [JsError.message app trace fst snd].
  - destruct (JsString.includes _ _); repeat split; discriminate.
  - destruct (ok r); cbn [negb orb].
    + destruct (blob_result r) as [e|b]; cbn [JsError.message app trace fst snd].
      * destruct (JsString.includes _ _); repeat split; discriminate.
      * destruct (createObjectURL_result P) as [e|url];
          cbn [JsError.message app trace fst snd].
        -- destruct (JsString.includes _ _); repeat split; discriminate.
        -- repeat split. discriminate.
    + destruct (text_result r) as [e|t]; cbn [JsError.message app trace fst snd];
        destruct (JsString.includes _ _); repeat split; discriminate.
Qed.

Lemma legacy_submit_keeps_or_clears_witness :
  files (app (snd (run (Legacy.handleSubmit (files (holding ten_documents)) offline)
                     (holding ten_documents))))
  = ten_documents.
Proof.
  assert (Hne : files (holding ten_documents) <> []) by (vm_compute; discriminate).
  exact (proj1 (proj2 (proj2
    (@legacy_submit_keeps_or_clears (holding ten_documents) offline Hne)))).
Defined.
